(** * Fleet metrics accumulator (pkg/controller/metrics/metrics.go)

    A shallow embedding of the metrics calculator of the hive controller:
    the job classifier [processJobs], the per-pass [clusterAccumulator]
    with its constructor, zero seeding and record processing, the
    publishing step [setMetrics] and one tick of [Calculator.Start].

    Conventions.
    - Go's [int] is the 64 bit two's complement integer of the platforms
      hive is built for; [x++] is [GoInt.incr].
    - A [time.Time] is a number of nanoseconds, a [time.Duration] an int64
      number of nanoseconds; [Time.Sub] saturates as in package time.
    - A Go map is a [gmap]; reading a missing key yields the zero value,
      writing through a missing outer key is a write to a nil map, which
      panics.
    - The wall clock is an oracle [clock]: the n-th call of [time.Now]
      returns [clock n]; code that reads the clock threads the number of
      readings made so far. *)

From Stdlib Require Import ZArith Lia.
From stdpp Require Import gmap strings list fin_maps.

Open Scope Z_scope.

(** ** Machine integers *)

Module GoInt.

Definition maxInt : Z := 2 ^ 63 - 1.
Definition minInt : Z := - 2 ^ 63.

(** Two's complement wrap-around of a mathematical integer into [int]. *)
Definition wrap (z : Z) : Z := (z + 2 ^ 63) mod 2 ^ 64 - 2 ^ 63.

(** [x++] *)
Definition incr (x : Z) : Z := wrap (x + 1).

End GoInt.

(** ** Package time, as far as the calculator uses it *)

Module GoTime.

(** Nanoseconds since the epoch. *)
Definition Time := Z.
(** int64 nanoseconds. *)
Definition Duration := Z.

Definition minDuration : Duration := - 2 ^ 63.
Definition maxDuration : Duration := 2 ^ 63 - 1.

(** [t.Sub(u)]: the difference, clamped to the range of Duration. *)
Definition Sub (t u : Time) : Duration :=
  if t - u <? minDuration then minDuration
  else if maxDuration <? t - u then maxDuration
  else t - u.

Definition Hour : Duration := 3600 * 1000000000.

End GoTime.

Import GoTime.

(** ** Outcomes of code that reads the clock and may panic *)

Inductive result (A : Type) : Type :=
| Ok (a : A)
| Panic (msg : string).
Arguments Ok {A} a.
Arguments Panic {A} msg.

(** A computation takes the number of clock readings made so far and
    either returns a value with the new number of readings, or panics. *)
Definition M (A : Type) : Type := nat -> result (A * nat).

Definition ret {A} (a : A) : M A := fun n => Ok (a, n).

Definition bind {A B} (m : M A) (k : A -> M B) : M B :=
  fun n => match m n with
           | Ok (a, n') => k a n'
           | Panic msg => Panic msg
           end.

Definition panic {A} (msg : string) : M A := fun _ => Panic msg.

Notation "'let*' x ':=' m 'in' k" := (bind m (fun x => k))
  (at level 10, x name, m at level 100, k at level 200).

(** The runtime error of [m[k] = v] on a nil map. *)
Definition nilMapWrite : string := "assignment to entry in nil map".

(** ** Kubernetes and hive API types (the fields the calculator reads) *)

(** corev1.ConditionTrue *)
Definition ConditionTrue : string := "True".

Record ClusterDeploymentCondition : Type := {
  cond_Type : string;       (* hivev1.ClusterDeploymentConditionType *)
  cond_Status : string      (* corev1.ConditionStatus *)
}.

Record ClusterDeployment : Type := {
  Labels : option (gmap string string);   (* None is the nil map *)
  CreationTimestamp : Time;
  Installed : bool;                       (* Status.Installed *)
  Conditions : list ClusterDeploymentCondition  (* Status.Conditions *)
}.

Record Job : Type := {
  CompletionTime : option Time;           (* Status.CompletionTime, a pointer *)
  Failed : Z                              (* Status.Failed, an int32 *)
}.

(** ** processJobs *)

Definition jobStep (acc : Z * Z) (job : Job) : Z * Z :=
  let '(running, failed) := acc in
  match CompletionTime job with
  | None =>
      if 0 <? Failed job then (running, GoInt.incr failed)
      else (GoInt.incr running, failed)
  | Some _ => (running, failed)
  end.

Definition processJobs (jobs : list Job) : Z * Z :=
  fold_left jobStep jobs (0, 0).

(** ** The accumulator *)

Record clusterAccumulator : Type := {
  clusterCreationTimeFilter : option Duration;
  total : gmap string Z;
  installed : gmap string Z;
  uninstalled : gmap string (gmap string Z);
  conditions : gmap string (gmap string Z)
}.

(** Reading [m[k]] from a map of counters. *)
Definition get (m : gmap string Z) (k : string) : Z := default 0 (m !! k).

(** [m[k]++] on a non-nil map of counters. *)
Definition inc (m : gmap string Z) (k : string) : gmap string Z :=
  <[k := GoInt.incr (get m k)]> m.

(** [if _, ok := m[k]; !ok { m[k] = 0 }] *)
Definition seed (k : string) (m : gmap string Z) : gmap string Z :=
  match m !! k with
  | Some _ => m
  | None => <[k := 0]> m
  end.

(** ** What a pass does to the outside: log lines and gauge updates *)

Inductive level : Type := Debug | Info | Error.

Inductive event : Type :=
| Log (lvl : level) (msg : string)
| GaugeSet (metric : string) (labelValues : list string) (value : Z).

(** What one pass gets from the API server: the three [Client.List]
    calls, [None] when the call returns an error. *)
Record snapshot : Type := {
  clusterDeployments : option (list ClusterDeployment);
  installJobs : option (list Job);
  uninstallJobs : option (list Job)
}.

(** How a part of the pass hands over: it falls through to the next
    statement, it returns from the pass, or it panics. The number is the
    clock readings made so far. *)
Inductive flow : Type :=
| Continue (n : nat)
| Return (n : nat)
| Crash (msg : string).

(** How the calculation loop ends. *)
Inductive exit : Type :=
| Stopped
| Crashed (msg : string).

Definition metricClusterDeploymentsTotal : string :=
  "hive_cluster_deployments_total".
Definition metricClusterDeploymentsInstalledTotal : string :=
  "hive_cluster_deployments_installed_total".
Definition metricClusterDeploymentsUninstalledTotal : string :=
  "hive_cluster_deployments_uninstalled_hours_total".
Definition metricClusterDeploymentsWithConditionTotal : string :=
  "hive_cluster_deployments_with_condition_total".
Definition metricInstallJobsRunningTotal : string :=
  "hive_install_jobs_running_total".
Definition metricInstallJobsFailedTotal : string :=
  "hive_install_jobs_failed_total".
Definition metricUninstallJobsRunningTotal : string :=
  "hive_uninstall_jobs_running_total".
Definition metricUninstallJobsFailedTotal : string :=
  "hive_uninstall_jobs_failed_total".

(** The buckets [Start] configures. *)
Definition startBuckets : list string :=
  ["0h"; "1h"; "2h"; "8h"; "24h"; "72h"].

(** ** Concrete parameters and records

    Values at which the calculator is run further down. The label key
    and the default type are those of hive. The parser reads whole hours,
    which is all the buckets of [Start] need; on these strings it gives
    what time.ParseDuration gives. *)

Module Sample.

Definition HiveClusterTypeLabel : string := "hive.openshift.io/cluster-type".
Definition DefaultClusterType : string := "unspecified".

Definition AllClusterDeploymentConditions : list string :=
  ["ClusterImageSetNotFound"; "ControlPlaneCertificateNotFound";
   "IngressCertificateNotFound"; "Unreachable"].

Definition digit (c : Ascii.ascii) : option Z :=
  let n := Z.of_nat (Ascii.nat_of_ascii c) in
  if (48 <=? n) && (n <=? 57) then Some (n - 48) else None.

Fixpoint hours (s : string) (acc : Z) : option Duration :=
  match s with
  | EmptyString => None
  | String c rest =>
      match digit c with
      | Some d => hours rest (10 * acc + d)
      | None =>
          if String.eqb s "h" then Some (acc * Hour) else None
      end
  end.

(** Decimal digits followed by [h]. *)
Definition ParseDuration (s : string) : option Duration :=
  match s with
  | EmptyString => None
  | String c _ => match digit c with Some _ => hours s 0 | None => None end
  end.

(** A clock that starts 100 hours after the epoch and advances by a
    nanosecond from one reading to the next. *)
Definition clock (n : nat) : Time := 100 * Hour + Z.of_nat n.

(** The accumulator [Start] builds. *)
Definition fresh : clusterAccumulator :=
  {| clusterCreationTimeFilter := None;
     total := ∅;
     installed := ∅;
     uninstalled := list_to_map ((fun b => (b, ∅)) <$> startBuckets);
     conditions :=
       list_to_map ((fun c => (c, ∅)) <$> AllClusterDeploymentConditions) |}.

(** The same with a cutoff of one hour. *)
Definition freshCutoff : clusterAccumulator :=
  {| clusterCreationTimeFilter := Some Hour;
     total := ∅;
     installed := ∅;
     uninstalled := uninstalled fresh;
     conditions := conditions fresh |}.

Definition labelled (type : string) : option (gmap string string) :=
  Some {[ HiveClusterTypeLabel := type ]}.

(** Created [h] hours before the first reading of the clock. *)
Definition cluster (labels : option (gmap string string)) (h : Z)
    (isInstalled : bool) (conds : list ClusterDeploymentCondition)
    : ClusterDeployment :=
  {| Labels := labels;
     CreationTimestamp := (100 - h) * Hour;
     Installed := isInstalled;
     Conditions := conds |}.

(** A record of the default type, installed, whose one true condition is
    of a type that is not among the known ones. *)
Definition hibernating : ClusterDeployment :=
  cluster None 5 true
    [ {| cond_Type := "Hibernating"; cond_Status := ConditionTrue |} ].

(** A record of type [prod], not installed, created ten hours ago. *)
Definition tenHours : ClusterDeployment :=
  cluster (labelled "prod") 10 false [].

(** A record of the default type, installed, created five hours ago, with
    a true condition of a known type. *)
Definition unreachable : ClusterDeployment :=
  cluster None 5 true
    [ {| cond_Type := "Unreachable"; cond_Status := ConditionTrue |} ].

(** A record of the default type, installed, with the same known
    condition true twice and another known condition false. *)
Definition flapping : ClusterDeployment :=
  cluster None 5 true
    [ {| cond_Type := "Unreachable"; cond_Status := ConditionTrue |};
      {| cond_Type := "IngressCertificateNotFound"; cond_Status := "False" |};
      {| cond_Type := "Unreachable"; cond_Status := ConditionTrue |} ].

(** An accumulator with one type, one bucket and no condition type. *)
Definition tallyOne : clusterAccumulator :=
  {| clusterCreationTimeFilter := None;
     total := {[ "prod" := 3 ]};
     installed := {[ "prod" := 1 ]};
     uninstalled := {[ "0h" := {[ "prod" := 2 ]} ]};
     conditions := ∅ |}.

(** What the API server answers in a pass: nothing could be listed. *)
Definition nothingListed : snapshot :=
  {| clusterDeployments := None; installJobs := None;
     uninstallJobs := None |}.

(** Three cluster deployments, two install jobs of which one has failed,
    and no answer for the uninstall jobs. *)
Definition threeClusters : snapshot :=
  {| clusterDeployments := Some [tenHours; unreachable; unreachable];
     installJobs := Some [ {| CompletionTime := None; Failed := 0 |};
                           {| CompletionTime := None; Failed := 2 |} ];
     uninstallJobs := None |}.

(** The jobs of [threeClusters], with the two other listings failing. *)
Definition jobsOnly : snapshot :=
  {| clusterDeployments := None;
     installJobs := installJobs threeClusters;
     uninstallJobs := None |}.

End Sample.

(** ** The calculator, over what it takes from other packages *)

Section Metrics.

(** time.ParseDuration; [None] is a parse error (Go then returns the
    zero Duration along with the error). *)
Variable ParseDuration : string -> option Duration.
(** hivev1.AllClusterDeploymentConditions *)
Variable AllClusterDeploymentConditions : list string.
(** hivev1.DefaultClusterType and hivev1.HiveClusterTypeLabel *)
Variable DefaultClusterType : string.
Variable HiveClusterTypeLabel : string.
(** The wall clock: the n-th reading of time.Now. *)
Variable clock : nat -> Time.

(** [time.Now()] *)
Definition time_Now : M Time := fun n => Ok (clock n, S n).

(** [time.Since(t)] is [time.Now().Sub(t)]. *)
Definition time_Since (t : Time) : M Duration :=
  let* now := time_Now in ret (Sub now t).

Definition GetClusterDeploymentType (cd : ClusterDeployment) : string :=
  match Labels cd with
  | None => DefaultClusterType
  | Some labels =>
      match labels !! HiveClusterTypeLabel with
      | None => DefaultClusterType
      | Some typeStr => typeStr
      end
  end.

(** The constructor's loop over the bucket strings: the first string
    that does not parse aborts construction with its error. *)
Fixpoint seedBuckets (buckets : list string)
    (acc : gmap string (gmap string Z))
    : option (gmap string (gmap string Z)) :=
  match buckets with
  | [] => Some acc
  | durStr :: rest =>
      match ParseDuration durStr with
      | None => None
      | Some _ => seedBuckets rest (<[durStr := ∅]> acc)
      end
  end.

Definition seedConditions (acc : gmap string (gmap string Z))
    : gmap string (gmap string Z) :=
  fold_left (fun m cdct => <[cdct := ∅]> m)
            AllClusterDeploymentConditions acc.

(** [None] is the [(nil, err)] return. *)
Definition newClusterAccumulator
    (clusterCreationTimeFilter : option Duration)
    (uninstalledDurationBuckets : list string)
    : option clusterAccumulator :=
  match seedBuckets uninstalledDurationBuckets ∅ with
  | None => None
  | Some u =>
      Some {| clusterCreationTimeFilter := clusterCreationTimeFilter;
              total := ∅;
              installed := ∅;
              uninstalled := u;
              conditions := seedConditions ∅ |}
  end.

Definition ensureClusterTypeBuckets (ca : clusterAccumulator)
    (clusterType : string) : clusterAccumulator :=
  {| clusterCreationTimeFilter := clusterCreationTimeFilter ca;
     total := seed clusterType (total ca);
     installed := seed clusterType (installed ca);
     uninstalled := seed clusterType <$> uninstalled ca;
     conditions := seed clusterType <$> conditions ca |}.

(** The threshold of bucket [k] as [processCluster] computes it: the
    parse error is dropped and the zero Duration used. *)
Definition gtDurBucket (k : string) : Duration :=
  default 0 (ParseDuration k).

(** The loop over the buckets of a cluster that is not installed. Every
    iteration touches the counter of its own bucket only, so the order
    in which Go ranges over the map does not show. *)
Definition sortIntoBuckets (uninstalledDur : Duration)
    (clusterType : string) (u : gmap string (gmap string Z))
    : gmap string (gmap string Z) :=
  map_imap (fun k v =>
              Some (if gtDurBucket k <? uninstalledDur
                    then inc v clusterType else v)) u.

(** The loop over the conditions of a record.
    [ca.conditions[cond.Type][clusterType]++] writes to the inner map
    found under [cond.Type]; when there is none, that is the nil map. *)
Fixpoint processConditions (clusterType : string)
    (conds : list ClusterDeploymentCondition)
    (c : gmap string (gmap string Z))
    : result (gmap string (gmap string Z)) :=
  match conds with
  | [] => Ok c
  | cond :: rest =>
      if String.eqb (cond_Status cond) ConditionTrue then
        match c !! cond_Type cond with
        | Some m =>
            processConditions clusterType rest
              (<[cond_Type cond := inc m clusterType]> c)
        | None => Panic nilMapWrite
        end
      else processConditions clusterType rest c
  end.

Definition setTotal (ca : clusterAccumulator) (m : gmap string Z) :=
  {| clusterCreationTimeFilter := clusterCreationTimeFilter ca;
     total := m; installed := installed ca;
     uninstalled := uninstalled ca; conditions := conditions ca |}.

Definition setInstalled (ca : clusterAccumulator) (m : gmap string Z) :=
  {| clusterCreationTimeFilter := clusterCreationTimeFilter ca;
     total := total ca; installed := m;
     uninstalled := uninstalled ca; conditions := conditions ca |}.

Definition setUninstalled (ca : clusterAccumulator)
    (u : gmap string (gmap string Z)) :=
  {| clusterCreationTimeFilter := clusterCreationTimeFilter ca;
     total := total ca; installed := installed ca;
     uninstalled := u; conditions := conditions ca |}.

Definition setConditions (ca : clusterAccumulator)
    (c : gmap string (gmap string Z)) :=
  {| clusterCreationTimeFilter := clusterCreationTimeFilter ca;
     total := total ca; installed := installed ca;
     uninstalled := uninstalled ca; conditions := c |}.

(** The creation time filter at the head of [processCluster]: [true]
    when the record is to be skipped. Without a filter the clock is not
    read. *)
Definition filteredOut (ca : clusterAccumulator) (cd : ClusterDeployment)
    : M bool :=
  match clusterCreationTimeFilter ca with
  | None => ret false
  | Some cutoff =>
      let* age := time_Since (CreationTimestamp cd) in
      ret (cutoff <? age)
  end.

(** [processCluster] below the filter. *)
Definition countCluster (ca : clusterAccumulator) (cd : ClusterDeployment)
    : M clusterAccumulator :=
  let clusterType := GetClusterDeploymentType cd in
  let ca := ensureClusterTypeBuckets ca clusterType in
  let ca := setTotal ca (inc (total ca) clusterType) in
  let* ca :=
    (if Installed cd then
       ret (setInstalled ca (inc (installed ca) clusterType))
     else
       let* uninstalledDur := time_Since (CreationTimestamp cd) in
       ret (setUninstalled ca
              (sortIntoBuckets uninstalledDur clusterType
                 (uninstalled ca)))) in
  match processConditions clusterType (Conditions cd) (conditions ca) with
  | Ok c => ret (setConditions ca c)
  | Panic msg => panic msg
  end.

Definition processCluster (ca : clusterAccumulator) (cd : ClusterDeployment)
    : M clusterAccumulator :=
  let* skip := filteredOut ca cd in
  if skip then ret ca else countCluster ca cd.

(** [for _, cd := range items { accumulator.processCluster(&cd) }] *)
Fixpoint processClusters (ca : clusterAccumulator)
    (items : list ClusterDeployment) : M clusterAccumulator :=
  match items with
  | [] => ret ca
  | cd :: rest =>
      let* ca' := processCluster ca cd in processClusters ca' rest
  end.

(** *** Publishing and the calculation loop *)

(** [for k, v := range m] visits the entries in an order Go leaves
    open; the embedding takes the order of [map_to_list]. A gauge
    receives [float64(v)]; the event records [v]. Log fields are left
    out of the log events. *)
Definition setMetrics (ca : clusterAccumulator)
    (totalG installedG uninstalledG conditionsG : string) : list event :=
  (map_to_list (total ca) ≫= fun '(k, v) =>
     [GaugeSet totalG [k] v;
      Log Debug "calculated total cluster deployments metric"])
  ++ (map_to_list (installed ca) ≫= fun '(k, v) =>
     [GaugeSet installedG [k] v;
      Log Debug "calculated total cluster deployments installed metric"])
  ++ (map_to_list (uninstalled ca) ≫= fun '(k, v) =>
      map_to_list v ≫= fun '(k1, v1) =>
        [GaugeSet uninstalledG [k1; k] v1;
         Log Debug "calculated total cluster deployments uninstalled metric"])
  ++ (map_to_list (conditions ca) ≫= fun '(k, v) =>
      map_to_list v ≫= fun '(k1, v1) =>
        [GaugeSet conditionsG [k1; k] v1;
         Log Debug "calculated total cluster deployments with condition metric"]).

(** The cluster part of one pass: everything between the listing of
    the cluster deployments and the first job log line. *)
Definition clusterMetrics (items : option (list ClusterDeployment))
    (n : nat) : list event * flow :=
  match items with
  | None => ([Log Error "error listing cluster deployments"], Continue n)
  | Some items =>
      let loaded := [Log Debug "loaded cluster deployments"] in
      match newClusterAccumulator None startBuckets with
      | None =>
          (loaded ++ [Log Error "unable to calculate metrics"], Return n)
      | Some accumulator =>
          match processClusters accumulator items n with
          | Panic msg => (loaded, Crash msg)
          | Ok (accumulator, n') =>
              (loaded ++
               setMetrics accumulator
                 metricClusterDeploymentsTotal
                 metricClusterDeploymentsInstalledTotal
                 metricClusterDeploymentsUninstalledTotal
                 metricClusterDeploymentsWithConditionTotal,
               Continue n')
          end
      end
  end.

Definition installJobMetrics (jobs : option (list Job)) : list event :=
  match jobs with
  | None => [Log Error "error listing install jobs"]
  | Some jobs =>
      let '(runningTotal, failedTotal) := processJobs jobs in
      [Log Debug "calculating running install jobs metric";
       Log Debug "calculated failed install jobs metric";
       GaugeSet metricInstallJobsRunningTotal [] runningTotal;
       GaugeSet metricInstallJobsFailedTotal [] failedTotal]
  end.

Definition uninstallJobMetrics (jobs : option (list Job)) : list event :=
  match jobs with
  | None => [Log Error "error listing uninstall jobs"]
  | Some jobs =>
      let '(runningTotal, failedTotal) := processJobs jobs in
      [Log Debug "calculated running uninstall jobs metric";
       Log Debug "calculated failed uninstall jobs metric";
       GaugeSet metricUninstallJobsRunningTotal [] runningTotal;
       GaugeSet metricUninstallJobsFailedTotal [] failedTotal]
  end.

(** The function literal that [Start] hands to [wait.Until]: one pass.
    The result is the events of the pass and how it ended: [Ok] when
    the literal returned (with the clock readings made), [Panic] when
    it panicked. *)
Definition pass (w : snapshot) (n : nat) : list event * result (unit * nat) :=
  let n := S n in                                  (* start := time.Now() *)
  let ev0 := [Log Info "calculating metrics across all ClusterDeployments"] in
  match clusterMetrics (clusterDeployments w) n with
  | (ev1, Crash msg) => (ev0 ++ ev1, Panic msg)
  | (ev1, Return n1) => (ev0 ++ ev1, Ok (tt, n1))
  | (ev1, Continue n1) =>
      (ev0 ++ ev1
       ++ [Log Info "calculating metrics across all install jobs"]
       ++ installJobMetrics (installJobs w)
       ++ [Log Info "calculating metrics across all uninstall jobs"]
       ++ uninstallJobMetrics (uninstallJobs w)
       ++ [Log Info "metrics calculation complete"],
       Ok (tt, S n1))                              (* time.Since(start) *)
  end.

(** [wait.Until(pass, mc.Interval, stopCh)]: a pass, a sleep, and so on
    until the stop channel is closed. [ticks] holds what the API
    server answers in each pass that starts before that. A panic in a
    pass is logged by [wait.Until] and raised again, which ends the
    process. *)
Fixpoint until (ticks : list snapshot) (n : nat) : list event * exit :=
  match ticks with
  | [] => ([], Stopped)
  | w :: rest =>
      match pass w n with
      | (ev, Panic msg) => (ev, Crashed msg)
      | (ev, Ok (_, n')) =>
          let '(evs, e) := until rest n' in (ev ++ evs, e)
      end
  end.

Definition Start (ticks : list snapshot) (n : nat) : list event * exit :=
  let '(evs, e) := until ticks n in
  (Log Info "started metrics calculator goroutine" :: evs, e).

(** *** Notions the properties are stated with *)

(** What one job adds to the two counters: the loop body run from zero. *)
Definition contribution (job : Job) : Z * Z := jobStep (0, 0) job.

Definition sumZ (l : list Z) : Z := foldr Z.add 0 l.

(** The age of a record as [time.Since] computes it from the n-th
    reading of the clock. *)
Definition age (n : nat) (cd : ClusterDeployment) : Duration :=
  Sub (clock n) (CreationTimestamp cd).

(** The accumulator after the counting part of [processCluster], before
    the loop over the conditions. *)
Definition tallied (ca : clusterAccumulator) (cd : ClusterDeployment)
    (uninstalledDur : Duration) : clusterAccumulator :=
  let clusterType := GetClusterDeploymentType cd in
  let ca := ensureClusterTypeBuckets ca clusterType in
  let ca := setTotal ca (inc (total ca) clusterType) in
  if Installed cd then setInstalled ca (inc (installed ca) clusterType)
  else setUninstalled ca
         (sortIntoBuckets uninstalledDur clusterType (uninstalled ca)).

(** What holds of an accumulator built for [buckets] and of every
    accumulator reached from it: its bucket keys are the configured
    strings, each of which parses, and its condition keys are the known
    condition types. *)
Record configured (buckets : list string) (ca : clusterAccumulator)
    : Prop := {
  cfg_buckets : forall b, is_Some (uninstalled ca !! b) <-> b ∈ buckets;
  cfg_parse : forall b, b ∈ buckets -> is_Some (ParseDuration b);
  cfg_conditions :
    forall c, is_Some (conditions ca !! c)
              <-> c ∈ AllClusterDeploymentConditions
}.

(** A record all of whose true conditions are of a known type. *)
Definition conditionKnown (cond : ClusterDeploymentCondition) : bool :=
  negb (String.eqb (cond_Status cond) ConditionTrue)
  || bool_decide (cond_Type cond ∈ AllClusterDeploymentConditions).

Definition conditionsKnown (cd : ClusterDeployment) : bool :=
  forallb conditionKnown (Conditions cd).

(** The record has no type label: it has no labels at all, or its labels
    do not have the key. *)
Definition typeLabelAbsent (cd : ClusterDeployment) : Prop :=
  match Labels cd with
  | None => True
  | Some labels => labels !! HiveClusterTypeLabel = None
  end.

Definition withLabels (cd : ClusterDeployment)
    (labels : option (gmap string string)) : ClusterDeployment :=
  {| Labels := labels;
     CreationTimestamp := CreationTimestamp cd;
     Installed := Installed cd;
     Conditions := Conditions cd |}.

(** The type [t] has an entry in every map of the accumulator. *)
Definition seeded (t : string) (ca : clusterAccumulator) : Prop :=
  is_Some (total ca !! t)
  /\ is_Some (installed ca !! t)
  /\ (forall b m, uninstalled ca !! b = Some m -> is_Some (m !! t))
  /\ (forall c m, conditions ca !! c = Some m -> is_Some (m !! t)).

(** After [N] records: per type, the installed count is at most the
    total, the total at most [N], and in every bucket the count added to
    the installed count is at most the total. *)
Definition counts (N : Z) (ca : clusterAccumulator) : Prop :=
  forall t,
    0 <= get (installed ca) t
    /\ get (installed ca) t <= get (total ca) t
    /\ get (total ca) t <= N
    /\ forall b m, uninstalled ca !! b = Some m ->
         0 <= get m t /\ get (installed ca) t + get m t <= get (total ca) t.

(** A bucket with the larger threshold never holds the larger count. *)
Definition antitone (ca : clusterAccumulator) : Prop :=
  forall b1 b2 m1 m2 t,
    uninstalled ca !! b1 = Some m1 -> uninstalled ca !! b2 = Some m2 ->
    gtDurBucket b1 <= gtDurBucket b2 ->
    get m2 t <= get m1 t.

(** A job that is counted at all: it has no completion time. *)
Definition incomplete (job : Job) : bool :=
  match CompletionTime job with None => true | Some _ => false end.

(** How many of the conditions are true and of type [c]. *)
Fixpoint trueCount (c : string) (conds : list ClusterDeploymentCondition)
    : nat :=
  match conds with
  | [] => 0
  | cond :: rest =>
      (if String.eqb (cond_Status cond) ConditionTrue
          && String.eqb (cond_Type cond) c
       then 1 else 0)%nat + trueCount c rest
  end.

(** The records of a snapshot whose type is [t]. *)
Definition ofType (t : string) (items : list ClusterDeployment)
    : list ClusterDeployment :=
  List.filter (fun cd => String.eqb (GetClusterDeploymentType cd) t) items.

(** In the run over [items] from [ca0], the record [cd] passes the
    filter, the clock having been read [n2] times when it has. *)
Definition countedIn (ca0 : clusterAccumulator)
    (items : list ClusterDeployment) (n : nat)
    (cd : ClusterDeployment) (n2 : nat) : Prop :=
  exists pre post ca1 n1,
    items = pre ++ cd :: post
    /\ processClusters ca0 pre n = Ok (ca1, n1)
    /\ filteredOut ca1 cd n1 = Ok (false, n2).

(** * Properties *)

(** ** Arithmetic of [int] *)

Lemma incr_no_overflow (x : Z) :
  GoInt.minInt <= x < GoInt.maxInt -> GoInt.incr x = x + 1.
Proof.
  unfold GoInt.incr, GoInt.wrap, GoInt.minInt, GoInt.maxInt. intros H.
  rewrite Z.mod_small by lia. lia.
Qed.

Lemma incr_changes (x : Z) : GoInt.incr x <> x.
Proof.
  unfold GoInt.incr, GoInt.wrap. intros H.
  pose proof (Z.div_mod (x + 1 + 2 ^ 63) (2 ^ 64) ltac:(lia)) as D.
  lia.
Qed.

(** ** Counters in maps *)

Lemma get_seed (k t : string) (m : gmap string Z) :
  get (seed k m) t = get m t.
Proof.
  unfold get, seed. destruct (m !! k) eqn:E; [done|].
  destruct (decide (k = t)) as [->|Hne].
  - by rewrite lookup_insert_eq, E.
  - by rewrite lookup_insert_ne.
Qed.

Lemma get_inc_eq (k : string) (m : gmap string Z) :
  get (inc m k) k = GoInt.incr (get m k).
Proof. unfold get at 1, inc. by rewrite lookup_insert_eq. Qed.

Lemma get_inc_ne (k t : string) (m : gmap string Z) :
  k <> t -> get (inc m k) t = get m t.
Proof. intros H. unfold get, inc. by rewrite lookup_insert_ne. Qed.

Lemma seed_is_Some (k t : string) (m : gmap string Z) :
  is_Some (seed k m !! t) <-> t = k \/ is_Some (m !! t).
Proof.
  unfold seed. destruct (m !! k) eqn:E.
  - split; [by right|]. intros [->|?]; [by rewrite E|done].
  - destruct (decide (k = t)) as [->|Hne].
    + rewrite lookup_insert_eq. split; [by left|by eauto].
    + rewrite lookup_insert_ne by done. split; [by right|].
      by intros [->|?].
Qed.

Lemma inc_is_Some (k t : string) (m : gmap string Z) :
  is_Some (inc m k !! t) <-> t = k \/ is_Some (m !! t).
Proof.
  unfold inc. destruct (decide (k = t)) as [->|Hne].
  - rewrite lookup_insert_eq. split; [by left|by eauto].
  - rewrite lookup_insert_ne by done. split; [by right|].
    by intros [->|?].
Qed.

Lemma seed_idemp (k : string) (m : gmap string Z) :
  seed k (seed k m) = seed k m.
Proof.
  unfold seed at 1. destruct (seed k m !! k) eqn:E; [done|].
  assert (is_Some (seed k m !! k)) as [? ?] by (apply seed_is_Some; by left).
  congruence.
Qed.

Lemma get_empty t : get ∅ t = 0.
Proof. unfold get. by rewrite lookup_empty. Qed.

(** ** The job classifier *)

Lemma contribution_cases (job : Job) :
  contribution job = (1, 0) \/ contribution job = (0, 1)
  \/ contribution job = (0, 0).
Proof.
  unfold contribution, jobStep.
  destruct (CompletionTime job); [by right; right|].
  destruct (0 <? Failed job); [right; left|left]; reflexivity.
Qed.

Lemma jobStep_contribution (running failed : Z) (job : Job) :
  0 <= running < GoInt.maxInt -> 0 <= failed < GoInt.maxInt ->
  jobStep (running, failed) job =
    (running + (contribution job).1, failed + (contribution job).2).
Proof.
  intros Hr Hf. unfold contribution, jobStep.
  destruct (CompletionTime job); simpl; [f_equal; lia|].
  destruct (0 <? Failed job); simpl;
    rewrite incr_no_overflow by (unfold GoInt.minInt; lia);
    f_equal; lia.
Qed.

Lemma fold_jobStep (jobs : list Job) (running failed : Z) :
  0 <= running -> 0 <= failed ->
  running + failed + Z.of_nat (length jobs) <= GoInt.maxInt ->
  fold_left jobStep jobs (running, failed) =
    (running + sumZ ((fun j => (contribution j).1) <$> jobs),
     failed + sumZ ((fun j => (contribution j).2) <$> jobs)).
Proof.
  revert running failed.
  induction jobs as [|job jobs IH]; intros running failed Hr Hf Hlen.
  - simpl. f_equal; lia.
  - cbn [fold_left]. cbn [length] in Hlen.
    rewrite jobStep_contribution by lia.
    pose proof (contribution_cases job) as Hc.
    rewrite IH.
    + rewrite !fmap_cons. unfold sumZ. cbn [foldr]. f_equal; lia.
    + destruct Hc as [->|[->| ->]]; simpl; lia.
    + destruct Hc as [->|[->| ->]]; simpl; lia.
    + destruct Hc as [->|[->| ->]]; simpl; lia.
Qed.

(** C7. [processJobs] returns the sums of what the jobs contribute, a job
    that has not completed and has no failure contributes 1 to running
    and 0 to failed, a job that has not completed and has failures
    contributes 0 to running and 1 to failed, and a job with a completion
    time contributes to neither, whatever its failure count. The length
    bound holds of every Go slice. *)
Theorem processJobs_classifies (jobs : list Job) :
  Z.of_nat (length jobs) <= GoInt.maxInt ->
  processJobs jobs =
    (sumZ ((fun j => (contribution j).1) <$> jobs),
     sumZ ((fun j => (contribution j).2) <$> jobs))
  /\ (forall job, CompletionTime job = None -> Failed job = 0 ->
        contribution job = (1, 0))
  /\ (forall job, CompletionTime job = None -> 0 < Failed job ->
        contribution job = (0, 1))
  /\ (forall job, CompletionTime job <> None -> contribution job = (0, 0)).
Proof.
  intros Hlen. split; [|split; [|split]].
  - unfold processJobs. rewrite fold_jobStep by lia. f_equal; lia.
  - intros job Hc Hf. unfold contribution, jobStep. by rewrite Hc, Hf.
  - intros job Hc Hf. unfold contribution, jobStep. rewrite Hc.
    by destruct (Z.ltb_spec 0 (Failed job)); [|lia].
  - intros job Hc. unfold contribution, jobStep.
    by destruct (CompletionTime job).
Qed.

(** C7 at four jobs: two running, one failed, one completed. *)
Lemma processJobs_classifies_witness :
  processJobs [ {| CompletionTime := None; Failed := 0 |};
                {| CompletionTime := None; Failed := 3 |};
                {| CompletionTime := Some 17; Failed := 2 |};
                {| CompletionTime := None; Failed := 0 |} ] = (2, 1).
Proof.
  pose proof (processJobs_classifies
    [ {| CompletionTime := None; Failed := 0 |};
      {| CompletionTime := None; Failed := 3 |};
      {| CompletionTime := Some 17; Failed := 2 |};
      {| CompletionTime := None; Failed := 0 |} ]) as H.
  destruct H as [H _]; [vm_compute; discriminate|].
  rewrite H. reflexivity.
Defined.

(** ** Running [processCluster] *)

Lemma filteredOut_None ca cd n :
  clusterCreationTimeFilter ca = None -> filteredOut ca cd n = Ok (false, n).
Proof. intros H. unfold filteredOut. by rewrite H. Qed.

Lemma filteredOut_Some ca cd n cutoff :
  clusterCreationTimeFilter ca = Some cutoff ->
  filteredOut ca cd n = Ok (cutoff <? age n cd, S n).
Proof. intros H. unfold filteredOut. by rewrite H. Qed.

Lemma filteredOut_returns ca cd n :
  exists skip n1, filteredOut ca cd n = Ok (skip, n1).
Proof.
  destruct (clusterCreationTimeFilter ca) as [cutoff|] eqn:E.
  - rewrite (filteredOut_Some _ _ _ _ E). eauto.
  - rewrite (filteredOut_None _ _ _ E). eauto.
Qed.

Lemma processCluster_skip ca cd n n1 :
  filteredOut ca cd n = Ok (true, n1) -> processCluster ca cd n = Ok (ca, n1).
Proof. intros H. unfold processCluster, bind. by rewrite H. Qed.

Lemma processCluster_count ca cd n n1 :
  filteredOut ca cd n = Ok (false, n1) ->
  processCluster ca cd n = countCluster ca cd n1.
Proof. intros H. unfold processCluster, bind. by rewrite H. Qed.

Lemma countCluster_eq ca cd n :
  countCluster ca cd n =
    match processConditions (GetClusterDeploymentType cd) (Conditions cd)
            (seed (GetClusterDeploymentType cd) <$> conditions ca) with
    | Ok c => Ok (setConditions (tallied ca cd (age n cd)) c,
                  if Installed cd then n else S n)
    | Panic msg => Panic msg
    end.
Proof.
  unfold countCluster, tallied, bind, age.
  destruct (Installed cd); simpl;
    by destruct (processConditions _ _ _).
Qed.

Lemma tallied_filter ca cd D :
  clusterCreationTimeFilter (tallied ca cd D) = clusterCreationTimeFilter ca.
Proof. unfold tallied. by destruct (Installed cd). Qed.

Lemma tallied_total ca cd D :
  total (tallied ca cd D) =
    inc (seed (GetClusterDeploymentType cd) (total ca))
        (GetClusterDeploymentType cd).
Proof. unfold tallied. by destruct (Installed cd). Qed.

Lemma tallied_installed ca cd D :
  installed (tallied ca cd D) =
    if Installed cd
    then inc (seed (GetClusterDeploymentType cd) (installed ca))
             (GetClusterDeploymentType cd)
    else seed (GetClusterDeploymentType cd) (installed ca).
Proof. unfold tallied. by destruct (Installed cd). Qed.

Lemma tallied_uninstalled ca cd D :
  uninstalled (tallied ca cd D) =
    if Installed cd
    then seed (GetClusterDeploymentType cd) <$> uninstalled ca
    else sortIntoBuckets D (GetClusterDeploymentType cd)
           (seed (GetClusterDeploymentType cd) <$> uninstalled ca).
Proof. unfold tallied. by destruct (Installed cd). Qed.

Lemma lookup_sortIntoBuckets D ct (u : gmap string (gmap string Z)) b :
  sortIntoBuckets D ct u !! b =
    (fun v => if gtDurBucket b <? D then inc v ct else v) <$> (u !! b).
Proof.
  unfold sortIntoBuckets. rewrite map_lookup_imap.
  by destruct (u !! b).
Qed.

(** The entry of bucket [b] after the counting part. *)
Lemma tallied_bucket ca cd D b :
  uninstalled (tallied ca cd D) !! b =
    (fun m =>
       if negb (Installed cd) && (gtDurBucket b <? D)
       then inc (seed (GetClusterDeploymentType cd) m)
                (GetClusterDeploymentType cd)
       else seed (GetClusterDeploymentType cd) m) <$> (uninstalled ca !! b).
Proof.
  rewrite tallied_uninstalled. destruct (Installed cd); simpl.
  - by rewrite lookup_fmap.
  - rewrite lookup_sortIntoBuckets, lookup_fmap.
    by destruct (uninstalled ca !! b).
Qed.

(** ** The loop over the conditions *)

Lemma processConditions_returns ct conds (c : gmap string (gmap string Z)) :
  (forall cond, cond ∈ conds -> cond_Status cond = ConditionTrue ->
                is_Some (c !! cond_Type cond)) ->
  exists c', processConditions ct conds c = Ok c'.
Proof.
  revert c. induction conds as [|cond rest IH]; intros c Hk; simpl.
  - eauto.
  - destruct (String.eqb_spec (cond_Status cond) ConditionTrue) as [Ht|Hf].
    + destruct (Hk cond) as [m Hm]; [left|done|]. rewrite Hm.
      apply IH. intros cond' Hin Hs.
      destruct (decide (cond_Type cond = cond_Type cond')) as [->|Hne].
      * rewrite lookup_insert_eq. eauto.
      * rewrite lookup_insert_ne by done. apply Hk; [by right|done].
    + apply IH. intros cond' Hin Hs. apply Hk; [by right|done].
Qed.

Lemma processConditions_panics ct conds (c : gmap string (gmap string Z)) cond :
  cond ∈ conds -> cond_Status cond = ConditionTrue ->
  c !! cond_Type cond = None ->
  processConditions ct conds c = Panic nilMapWrite.
Proof.
  revert c. induction conds as [|cond' rest IH]; intros c Hin Hs Hn.
  - by apply elem_of_nil in Hin.
  - simpl. apply elem_of_cons in Hin as [<-|Hin].
    + by rewrite Hs, Hn.
    + destruct (String.eqb (cond_Status cond') ConditionTrue); [|by apply IH].
      destruct (c !! cond_Type cond') as [m|] eqn:Hm; [|done].
      apply IH; [done..|].
      rewrite lookup_insert_ne; [done|]. intros Heq. congruence.
Qed.

(** The loop neither adds nor drops a condition type, and an inner map
    only gains entries. *)
Lemma processConditions_shape ct conds (c c' : gmap string (gmap string Z)) :
  processConditions ct conds c = Ok c' ->
  forall k, match c !! k, c' !! k with
            | Some m, Some m' => forall t, is_Some (m !! t) -> is_Some (m' !! t)
            | None, None => True
            | _, _ => False
            end.
Proof.
  revert c. induction conds as [|cond rest IH]; intros c Hrun k; simpl in Hrun.
  - injection Hrun as <-. by destruct (c !! k).
  - destruct (String.eqb (cond_Status cond) ConditionTrue); [|by apply IH].
    destruct (c !! cond_Type cond) as [m|] eqn:Hm; [|done].
    specialize (IH _ Hrun k).
    destruct (decide (cond_Type cond = k)) as [<-|Hne].
    + rewrite lookup_insert_eq in IH. rewrite Hm.
      destruct (c' !! cond_Type cond) as [m'|]; [|done].
      intros t Ht. apply IH, inc_is_Some. by right.
    + by rewrite lookup_insert_ne in IH.
Qed.

(** What the loop adds under one condition type. *)
Lemma processConditions_counts ct conds (c c' : gmap string (gmap string Z)) :
  processConditions ct conds c = Ok c' ->
  forall k m, c !! k = Some m ->
    exists m',
      c' !! k = Some m'
      /\ get m' ct = Nat.iter (trueCount k conds) GoInt.incr (get m ct)
      /\ forall t, t <> ct -> m' !! t = m !! t.
Proof.
  revert c. induction conds as [|cond rest IH]; intros c Hrun k m Hm.
  - simpl in Hrun. injection Hrun as <-. by exists m.
  - cbn [processConditions trueCount] in *.
    destruct (String.eqb_spec (cond_Status cond) ConditionTrue) as [Hs|Hs];
      [|by apply (IH c)].
    destruct (c !! cond_Type cond) as [m0|] eqn:Hm0; [|done].
    destruct (String.eqb_spec (cond_Type cond) k) as [Hk|Hk]; cbn [andb].
    + subst k. rewrite Hm in Hm0. injection Hm0 as <-.
      destruct (IH _ Hrun (cond_Type cond) (inc m ct))
        as (m' & Hm' & Hget & Hother); [by rewrite lookup_insert_eq|].
      exists m'. split; [done|]. split.
      * rewrite Hget, get_inc_eq.
        change (1 + trueCount (cond_Type cond) rest)%nat
          with (S (trueCount (cond_Type cond) rest)).
        by rewrite Nat.iter_succ_r.
      * intros t Ht. rewrite Hother by done.
        unfold inc. by rewrite lookup_insert_ne.
    + apply (IH _ Hrun k m). by rewrite lookup_insert_ne.
Qed.

(** Seeding a type twice is seeding it once. *)
Lemma ensureClusterTypeBuckets_idempotent ca clusterType :
  ensureClusterTypeBuckets (ensureClusterTypeBuckets ca clusterType)
    clusterType
  = ensureClusterTypeBuckets ca clusterType.
Proof.
  unfold ensureClusterTypeBuckets. simpl.
  rewrite !seed_idemp, <- !map_fmap_compose.
  f_equal; apply map_fmap_ext; intros; apply seed_idemp.
Qed.

(** A fresh entry is zero, an entry that is there is kept. *)
Lemma seed_lookup (k : string) (m : gmap string Z) :
  seed k m !! k = Some (get m k).
Proof.
  unfold seed, get. destruct (m !! k) eqn:E; [by rewrite E|].
  by rewrite lookup_insert_eq.
Qed.

(** ** Accumulators the constructor builds *)

Lemma seedBuckets_Some buckets acc u :
  seedBuckets buckets acc = Some u ->
  (forall b, b ∈ buckets -> is_Some (ParseDuration b))
  /\ (forall b, is_Some (u !! b) <-> b ∈ buckets \/ is_Some (acc !! b))
  /\ (forall b, b ∈ buckets -> u !! b = Some ∅)
  /\ (forall b, b ∉ buckets -> u !! b = acc !! b).
Proof.
  revert acc. induction buckets as [|durStr rest IH]; intros acc H; simpl in H.
  - injection H as <-. repeat split.
    + by intros b ?%elem_of_nil.
    + by right.
    + intros [?%elem_of_nil|?]; done.
    + by intros b ?%elem_of_nil.
  - destruct (ParseDuration durStr) as [d|] eqn:Hp; [|done].
    destruct (IH _ H) as (Hparse & Hdom & Hnew & Hold).
    repeat split.
    + intros b [->|Hb]%elem_of_cons; [by rewrite Hp|by apply Hparse].
    + intros Hb. apply Hdom in Hb as [Hb|Hb]; [left; by right|].
      destruct (decide (durStr = b)) as [->|Hne]; [left; by left|].
      rewrite lookup_insert_ne in Hb by done. by right.
    + intros [[->|Hb]%elem_of_cons|Hb]; apply Hdom.
      * right. rewrite lookup_insert_eq. eauto.
      * by left.
      * right. destruct (decide (durStr = b)) as [->|Hne].
        -- rewrite lookup_insert_eq. eauto.
        -- by rewrite lookup_insert_ne.
    + intros b Hb. destruct (decide (b ∈ rest)) as [Hin|Hnin].
      * by apply Hnew.
      * apply elem_of_cons in Hb as [->|Hb]; [|done].
        rewrite Hold by done. by rewrite lookup_insert_eq.
    + intros b Hb. apply not_elem_of_cons in Hb as [Hne Hb].
      rewrite Hold by done. by rewrite lookup_insert_ne.
Qed.

Lemma seedBuckets_None buckets acc :
  seedBuckets buckets acc = None <->
  exists durStr, durStr ∈ buckets /\ ParseDuration durStr = None.
Proof.
  revert acc. induction buckets as [|durStr rest IH]; intros acc; simpl.
  - split; [done|]. by intros (? & ?%elem_of_nil & _).
  - destruct (ParseDuration durStr) as [d|] eqn:Hp.
    + rewrite IH. split.
      * intros (s & Hs & Hn). exists s. split; [by right|done].
      * intros (s & [->|Hs]%elem_of_cons & Hn); [congruence|eauto].
    + split; [|done]. intros _. exists durStr. split; [by left|done].
Qed.

Lemma seedConditions_lookup (l : list string)
    (acc : gmap string (gmap string Z)) c :
  fold_left (fun m cdct => <[cdct := ∅]> m) l acc !! c =
    if decide (c ∈ l) then Some ∅ else acc !! c.
Proof.
  revert acc. induction l as [|x l IH]; intros acc.
  - destruct (decide (c ∈ [])) as [Hin|_]; [|done].
    by apply elem_of_nil in Hin.
  - cbn [fold_left]. rewrite IH.
    destruct (decide (c ∈ l)) as [Hin|Hnin];
      destruct (decide (c ∈ x :: l)) as [Hin'|Hnin']; try done.
    + exfalso. apply Hnin'. by right.
    + apply elem_of_cons in Hin' as [->|?]; [|done].
      by rewrite lookup_insert_eq.
    + rewrite lookup_insert_ne; [done|]. intros ->. apply Hnin'. by left.
Qed.

Lemma newClusterAccumulator_Some cutoff buckets ca :
  newClusterAccumulator cutoff buckets = Some ca ->
  configured buckets ca
  /\ clusterCreationTimeFilter ca = cutoff
  /\ total ca = ∅ /\ installed ca = ∅
  /\ (forall b m, uninstalled ca !! b = Some m -> m = ∅)
  /\ (forall c m, conditions ca !! c = Some m -> m = ∅).
Proof.
  unfold newClusterAccumulator. intros H.
  destruct (seedBuckets buckets ∅) as [u|] eqn:Hu; [|done].
  injection H as <-. simpl.
  destruct (seedBuckets_Some _ _ _ Hu) as (Hparse & Hdom & Hnew & Hold).
  repeat split; simpl; try done.
  - intros Hb. apply Hdom in Hb as [Hb|Hb]; [done|].
    rewrite lookup_empty in Hb. by destruct Hb.
  - intros Hb. apply Hdom. by left.
  - unfold seedConditions. rewrite seedConditions_lookup.
    case_decide; [done|]. rewrite lookup_empty. by intros [? ?].
  - intros Hc. unfold seedConditions. rewrite seedConditions_lookup.
    rewrite decide_True by done. eauto.
  - intros b m Hb. destruct (decide (b ∈ buckets)) as [Hin|Hnin].
    + rewrite Hnew in Hb by done. congruence.
    + rewrite Hold, lookup_empty in Hb; done.
  - intros c m. unfold seedConditions. rewrite seedConditions_lookup.
    case_decide; [congruence|]. by rewrite lookup_empty.
Qed.

Lemma newClusterAccumulator_None cutoff buckets :
  newClusterAccumulator cutoff buckets = None <->
  exists durStr, durStr ∈ buckets /\ ParseDuration durStr = None.
Proof.
  rewrite <- (seedBuckets_None buckets ∅). unfold newClusterAccumulator.
  by destruct (seedBuckets buckets ∅).
Qed.

Lemma conditionsKnown_spec cd cond :
  conditionsKnown cd = true -> cond ∈ Conditions cd ->
  cond_Status cond = ConditionTrue ->
  cond_Type cond ∈ AllClusterDeploymentConditions.
Proof.
  unfold conditionsKnown. rewrite forallb_forall.
  intros H Hin Hs. apply list_elem_of_In, H in Hin.
  unfold conditionKnown in Hin. rewrite Hs, String.eqb_refl in Hin.
  simpl in Hin. by apply bool_decide_eq_true in Hin.
Qed.

(** ** One record *)

Lemma processCluster_inv ca cd n ca' n' :
  processCluster ca cd n = Ok (ca', n') ->
  (filteredOut ca cd n = Ok (true, n') /\ ca' = ca)
  \/ (exists n1 c,
        filteredOut ca cd n = Ok (false, n1)
        /\ processConditions (GetClusterDeploymentType cd) (Conditions cd)
             (seed (GetClusterDeploymentType cd) <$> conditions ca) = Ok c
        /\ ca' = setConditions (tallied ca cd (age n1 cd)) c
        /\ n' = if Installed cd then n1 else S n1).
Proof.
  intros H. destruct (filteredOut_returns ca cd n) as ([|] & n1 & Hf).
  - rewrite (processCluster_skip _ _ _ _ Hf) in H. left. by simplify_eq.
  - rewrite (processCluster_count _ _ _ _ Hf), countCluster_eq in H.
    right. exists n1.
    destruct (processConditions _ _ _) as [c|msg]; [|done].
    exists c. by simplify_eq.
Qed.

Lemma seeded_conditions_known buckets ca cd :
  configured buckets ca -> conditionsKnown cd = true ->
  forall cond, cond ∈ Conditions cd -> cond_Status cond = ConditionTrue ->
    is_Some ((seed (GetClusterDeploymentType cd) <$> conditions ca)
               !! cond_Type cond).
Proof.
  intros Hcfg Hk cond Hin Hs. rewrite lookup_fmap.
  apply fmap_is_Some, (cfg_conditions _ _ Hcfg).
  by apply (conditionsKnown_spec cd).
Qed.

(** A record that passes the filter and whose true conditions are known
    is counted, and [processCluster] returns. *)
Lemma processCluster_counted buckets ca cd n n1 :
  configured buckets ca -> conditionsKnown cd = true ->
  filteredOut ca cd n = Ok (false, n1) ->
  exists c,
    processConditions (GetClusterDeploymentType cd) (Conditions cd)
      (seed (GetClusterDeploymentType cd) <$> conditions ca) = Ok c
    /\ processCluster ca cd n =
         Ok (setConditions (tallied ca cd (age n1 cd)) c,
             if Installed cd then n1 else S n1).
Proof.
  intros Hcfg Hk Hf.
  destruct (processConditions_returns (GetClusterDeploymentType cd)
              (Conditions cd)
              (seed (GetClusterDeploymentType cd) <$> conditions ca))
    as [c Hc]; [by eapply seeded_conditions_known|].
  exists c. split; [done|].
  by rewrite (processCluster_count _ _ _ _ Hf), countCluster_eq, Hc.
Qed.

Lemma processCluster_returns buckets ca cd n :
  configured buckets ca -> conditionsKnown cd = true ->
  exists ca' n', processCluster ca cd n = Ok (ca', n').
Proof.
  intros Hcfg Hk. destruct (filteredOut_returns ca cd n) as ([|] & n1 & Hf).
  - rewrite (processCluster_skip _ _ _ _ Hf). eauto.
  - destruct (processCluster_counted _ _ _ _ _ Hcfg Hk Hf) as (c & _ & ->).
    eauto.
Qed.

Lemma processCluster_filter ca cd n ca' n' :
  processCluster ca cd n = Ok (ca', n') ->
  clusterCreationTimeFilter ca' = clusterCreationTimeFilter ca.
Proof.
  intros [[_ ->]|(n1 & c & _ & _ & -> & _)]%processCluster_inv; [done|].
  simpl. apply tallied_filter.
Qed.

Lemma processCluster_configured buckets ca cd n ca' n' :
  configured buckets ca -> processCluster ca cd n = Ok (ca', n') ->
  configured buckets ca'.
Proof.
  intros Hcfg [[_ ->]|(n1 & c & _ & Hc & -> & _)]%processCluster_inv; [done|].
  split.
  - intros b. cbn [uninstalled setConditions]. rewrite tallied_bucket.
    rewrite fmap_is_Some. apply (cfg_buckets _ _ Hcfg).
  - apply (cfg_parse _ _ Hcfg).
  - intros k. cbn [conditions setConditions].
    pose proof (processConditions_shape _ _ _ _ Hc k) as Hs.
    rewrite lookup_fmap in Hs. rewrite <- (cfg_conditions _ _ Hcfg).
    destruct (conditions ca !! k), (c !! k); simpl in Hs;
      try done; split; intros [? ?]; by eauto.
Qed.

Lemma processCluster_counted_inv ca cd n n1 ca' n' :
  filteredOut ca cd n = Ok (false, n1) ->
  processCluster ca cd n = Ok (ca', n') ->
  exists c,
    ca' = setConditions (tallied ca cd (age n1 cd)) c
    /\ n' = if Installed cd then n1 else S n1.
Proof.
  intros Hf [[Hf' _]|(n2 & c & Hf' & _ & -> & ->)]%processCluster_inv;
    [congruence|].
  rewrite Hf in Hf'. injection Hf' as <-. by exists c.
Qed.

(** C6. With a creation time cutoff configured, a record whose age (as
    [time.Since] computes it at the filter's reading of the clock) is
    strictly greater than the cutoff leaves the accumulator as it is: no
    entry of any map is created or changed, the type of the record is not
    seeded. *)
Theorem cutoff_skips_record ca cd n cutoff :
  clusterCreationTimeFilter ca = Some cutoff ->
  cutoff < age n cd ->
  processCluster ca cd n = Ok (ca, S n).
Proof.
  intros Hf Hlt. apply processCluster_skip.
  rewrite (filteredOut_Some _ _ _ _ Hf).
  by destruct (Z.ltb_spec cutoff (age n cd)); [|lia].
Qed.

(** ** The type of a record *)

Lemma processCluster_by_type ca cd cd' n :
  GetClusterDeploymentType cd = GetClusterDeploymentType cd' ->
  CreationTimestamp cd = CreationTimestamp cd' ->
  Installed cd = Installed cd' ->
  Conditions cd = Conditions cd' ->
  processCluster ca cd n = processCluster ca cd' n.
Proof.
  intros Ht Hc Hi Hcs.
  unfold processCluster, filteredOut, countCluster.
  by rewrite Ht, Hc, Hi, Hcs.
Qed.

(** C5, as amended. A record without a type label is resolved to the
    default type, and processing it gives what processing the same record
    labelled with the value of the default type gives. *)
Theorem absent_type_label_is_default ca cd labels n :
  typeLabelAbsent cd ->
  labels !! HiveClusterTypeLabel = Some DefaultClusterType ->
  GetClusterDeploymentType cd = DefaultClusterType
  /\ processCluster ca cd n = processCluster ca (withLabels cd (Some labels)) n.
Proof.
  intros Habs Hl.
  assert (Ht : GetClusterDeploymentType cd = DefaultClusterType).
  { unfold GetClusterDeploymentType, typeLabelAbsent in *.
    destruct (Labels cd); [by rewrite Habs|done]. }
  split; [done|]. apply processCluster_by_type; try done.
  rewrite Ht. unfold GetClusterDeploymentType. simpl. by rewrite Hl.
Qed.

(** A label that is present is the type of the record, whatever its
    value: the empty string too. *)
Lemma present_type_label_is_type cd labels typeStr :
  Labels cd = Some labels -> labels !! HiveClusterTypeLabel = Some typeStr ->
  GetClusterDeploymentType cd = typeStr.
Proof. intros Hl Ht. unfold GetClusterDeploymentType. by rewrite Hl, Ht. Qed.

(** ** Unknown condition types *)

(** C1. The code does not ignore a true condition of a type outside the
    known ones: [processCluster] panics with a write to a nil map on every
    record that passes the filter and carries one. *)
Theorem unknown_condition_panics buckets ca cd n n1 cond :
  configured buckets ca ->
  filteredOut ca cd n = Ok (false, n1) ->
  cond ∈ Conditions cd ->
  cond_Status cond = ConditionTrue ->
  cond_Type cond ∉ AllClusterDeploymentConditions ->
  processCluster ca cd n = Panic nilMapWrite.
Proof.
  intros Hcfg Hf Hin Hs Hunk.
  rewrite (processCluster_count _ _ _ _ Hf), countCluster_eq.
  rewrite (processConditions_panics _ _ _ cond); [done..|].
  rewrite lookup_fmap.
  destruct (conditions ca !! cond_Type cond) eqn:E; [|done].
  exfalso. apply Hunk, (cfg_conditions _ _ Hcfg). by rewrite E.
Qed.

(** ** Buckets of a record that is not installed *)

Lemma get_bucket_entry ct (m : gmap string Z) (hit : bool) t :
  get (if hit then inc (seed ct m) ct else seed ct m) t =
    if hit && bool_decide (t = ct) then GoInt.incr (get m t) else get m t.
Proof.
  destruct hit; simpl; [|apply get_seed].
  case_bool_decide as Ht.
  - subst t. by rewrite get_inc_eq, get_seed.
  - rewrite get_inc_ne by done. apply get_seed.
Qed.

(** C2. A record that is not installed and passes the filter, of age D at
    the reading of the clock that computes its age, increments the counter
    of its type in every configured bucket whose parsed threshold is
    strictly less than D, and leaves the counter as it is in every bucket
    whose threshold is D or more; the counters of the other types do not
    move. [processCluster] returns on the record when its true conditions
    are of known types. *)
Theorem uninstalled_counted_above_threshold buckets ca cd n n1 :
  configured buckets ca ->
  filteredOut ca cd n = Ok (false, n1) ->
  Installed cd = false ->
  (conditionsKnown cd = true ->
   exists ca', processCluster ca cd n = Ok (ca', S n1))
  /\ forall ca' n',
       processCluster ca cd n = Ok (ca', n') ->
       forall b threshold,
         b ∈ buckets -> ParseDuration b = Some threshold ->
         exists m m',
           uninstalled ca !! b = Some m
           /\ uninstalled ca' !! b = Some m'
           /\ (threshold < age n1 cd ->
               get m' (GetClusterDeploymentType cd) =
                 GoInt.incr (get m (GetClusterDeploymentType cd)))
           /\ (age n1 cd <= threshold ->
               get m' (GetClusterDeploymentType cd) =
                 get m (GetClusterDeploymentType cd))
           /\ (forall t, t <> GetClusterDeploymentType cd ->
                         get m' t = get m t).
Proof.
  intros Hcfg Hf Hi. split.
  - intros Hk.
    destruct (processCluster_counted _ _ _ _ _ Hcfg Hk Hf) as (c & _ & Hrun).
    rewrite Hi in Hrun. eauto.
  - intros ca' n' Hrun b threshold Hb Hp.
    destruct (processCluster_counted_inv _ _ _ _ _ _ Hf Hrun) as (c & -> & _).
    destruct (proj2 (cfg_buckets _ _ Hcfg b) Hb) as [m Hm].
    exists m. eexists. split; [done|].
    cbn [uninstalled setConditions]. rewrite tallied_bucket, Hm, Hi.
    split; [reflexivity|]. simpl.
    unfold gtDurBucket. rewrite Hp. simpl.
    repeat split.
    + intros Hlt. rewrite get_bucket_entry.
      destruct (Z.ltb_spec threshold (age n1 cd)); [|lia].
      by rewrite bool_decide_eq_true_2.
    + intros Hge. rewrite get_bucket_entry.
      by destruct (Z.ltb_spec threshold (age n1 cd)); [lia|].
    + intros t Ht. rewrite get_bucket_entry.
      rewrite bool_decide_eq_false_2 by done. by rewrite andb_false_r.
Qed.

(** ** Installed or not installed *)

(** C8. Processing one record never moves both an installed counter and
    a bucket counter. A record that is installed leaves every counter of
    every bucket as it is (and, when it passes the filter, increments the
    installed counter of its type); a record that is not installed leaves
    every installed counter as it is. [processCluster] returns on the
    record when its true conditions are of known types. *)
Theorem installed_and_buckets_exclusive buckets ca cd n :
  configured buckets ca ->
  (conditionsKnown cd = true ->
   exists ca' n', processCluster ca cd n = Ok (ca', n'))
  /\ forall ca' n',
       processCluster ca cd n = Ok (ca', n') ->
       (Installed cd = true ->
        (forall b m t, uninstalled ca !! b = Some m ->
           exists m', uninstalled ca' !! b = Some m' /\ get m' t = get m t)
        /\ (forall n1, filteredOut ca cd n = Ok (false, n1) ->
              get (installed ca') (GetClusterDeploymentType cd) =
                GoInt.incr (get (installed ca) (GetClusterDeploymentType cd))))
       /\ (Installed cd = false ->
           forall t, get (installed ca') t = get (installed ca) t).
Proof.
  intros Hcfg. split; [by apply (processCluster_returns buckets)|].
  intros ca' n' [[Hf ->]|(n1 & c & Hf & _ & -> & _)]%processCluster_inv.
  - split; [|done]. intros _. split; [by eauto|]. intros n2 Hf2. congruence.
  - split.
    + intros Hi. split.
      * intros b m t Hm. cbn [uninstalled setConditions].
        rewrite tallied_bucket, Hm, Hi. simpl.
        eexists. split; [done|]. apply get_seed.
      * intros n2 _. cbn [installed setConditions].
        rewrite tallied_installed, Hi. by rewrite get_inc_eq, get_seed.
    + intros Hi t. cbn [installed setConditions].
      rewrite tallied_installed, Hi. apply get_seed.
Qed.

(** ** A snapshot of records *)

Lemma processClusters_cons ca cd rest n :
  processClusters ca (cd :: rest) n =
    match processCluster ca cd n with
    | Ok (ca', n') => processClusters ca' rest n'
    | Panic msg => Panic msg
    end.
Proof. reflexivity. Qed.

Lemma processClusters_app ca pre post n :
  processClusters ca (pre ++ post) n =
    match processClusters ca pre n with
    | Ok (ca', n') => processClusters ca' post n'
    | Panic msg => Panic msg
    end.
Proof.
  revert ca n. induction pre as [|cd pre IH]; intros ca n; [done|].
  rewrite <- app_comm_cons, !processClusters_cons.
  destruct (processCluster ca cd n) as [[ca' n']|msg]; [apply IH|done].
Qed.

Lemma processClusters_returns buckets ca items n :
  configured buckets ca -> forallb conditionsKnown items = true ->
  exists ca' n', processClusters ca items n = Ok (ca', n').
Proof.
  revert ca n. induction items as [|cd rest IH]; intros ca n Hcfg Hk.
  - simpl. unfold ret. eauto.
  - simpl in Hk. apply andb_prop in Hk as [Hk Hks].
    rewrite processClusters_cons.
    destruct (processCluster_returns _ _ _ n Hcfg Hk) as (ca1 & n1 & Hrun).
    rewrite Hrun. apply IH; [|done].
    by eapply processCluster_configured.
Qed.

Lemma processClusters_configured buckets ca items n ca' n' :
  configured buckets ca -> processClusters ca items n = Ok (ca', n') ->
  configured buckets ca'.
Proof.
  revert ca n. induction items as [|cd rest IH]; intros ca n Hcfg Hrun.
  - simpl in Hrun. unfold ret in Hrun. by simplify_eq.
  - rewrite processClusters_cons in Hrun.
    destruct (processCluster ca cd n) as [[ca1 n1]|msg] eqn:Hstep; [|done].
    eapply IH; [|done]. by eapply processCluster_configured.
Qed.

(** Where a run over [pre ++ cd :: post] stands before and after [cd]. *)
Lemma processClusters_split ca pre cd post n ca' n' :
  processClusters ca (pre ++ cd :: post) n = Ok (ca', n') ->
  exists ca1 n1 ca2 n2,
    processClusters ca pre n = Ok (ca1, n1)
    /\ processCluster ca1 cd n1 = Ok (ca2, n2)
    /\ processClusters ca2 post n2 = Ok (ca', n').
Proof.
  rewrite processClusters_app.
  destruct (processClusters ca pre n) as [[ca1 n1]|msg]; [|done].
  rewrite processClusters_cons.
  destruct (processCluster ca1 cd n1) as [[ca2 n2]|msg] eqn:Hstep; [|done].
  intros Hpost. by exists ca1, n1, ca2, n2.
Qed.

(** ** Zero seeding *)

Lemma entry_is_Some ct (m : gmap string Z) (hit : bool) t :
  is_Some ((if hit then inc (seed ct m) ct else seed ct m) !! t)
  <-> t = ct \/ is_Some (m !! t).
Proof.
  destruct hit; [rewrite inc_is_Some|]; rewrite seed_is_Some; tauto.
Qed.

(** After the counting of a record, an entry is there for its type and
    for every type that had one. *)
Lemma counted_seeded ca cd D c t :
  processConditions (GetClusterDeploymentType cd) (Conditions cd)
    (seed (GetClusterDeploymentType cd) <$> conditions ca) = Ok c ->
  t = GetClusterDeploymentType cd \/ seeded t ca ->
  seeded t (setConditions (tallied ca cd D) c).
Proof.
  intros Hc Ht.
  assert (Hin : forall m : gmap string Z,
            (t = GetClusterDeploymentType cd \/ seeded t ca) ->
            (seeded t ca -> is_Some (m !! t)) ->
            t = GetClusterDeploymentType cd \/ is_Some (m !! t)).
  { intros m [?|?] ?; [by left|right; auto]. }
  unfold seeded. cbn [total installed uninstalled conditions setConditions].
  split; [|split; [|split]].
  - rewrite tallied_total.
    apply (entry_is_Some _ _ true), Hin; [done|]. by intros (? & _).
  - rewrite tallied_installed.
    apply (entry_is_Some _ _ (Installed cd)), Hin; [done|].
    by intros (_ & ? & _).
  - intros b m'. rewrite tallied_bucket.
    destruct (uninstalled ca !! b) as [m|] eqn:Hm; [|done].
    simpl. intros [= <-]. apply entry_is_Some, Hin; [done|].
    intros (_ & _ & Hu & _). by eapply Hu.
  - intros k m' Hm'.
    pose proof (processConditions_shape _ _ _ _ Hc k) as Hs.
    rewrite lookup_fmap, Hm' in Hs.
    destruct (conditions ca !! k) as [m|] eqn:Hm; simpl in Hs; [|done].
    apply Hs, seed_is_Some, Hin; [done|].
    intros (_ & _ & _ & Hcs). by eapply Hcs.
Qed.

Lemma processCluster_seeds ca cd n n1 ca' n' :
  filteredOut ca cd n = Ok (false, n1) ->
  processCluster ca cd n = Ok (ca', n') ->
  seeded (GetClusterDeploymentType cd) ca'.
Proof.
  intros Hf [[Hf' _]|(n2 & c & _ & Hc & -> & _)]%processCluster_inv;
    [congruence|].
  apply counted_seeded; [done|by left].
Qed.

Lemma processCluster_keeps_seeded t ca cd n ca' n' :
  seeded t ca -> processCluster ca cd n = Ok (ca', n') -> seeded t ca'.
Proof.
  intros Hs [[_ ->]|(n2 & c & _ & Hc & -> & _)]%processCluster_inv; [done|].
  apply counted_seeded; [done|by right].
Qed.

Lemma processClusters_keeps_seeded t ca items n ca' n' :
  seeded t ca -> processClusters ca items n = Ok (ca', n') -> seeded t ca'.
Proof.
  revert ca n. induction items as [|cd rest IH]; intros ca n Hs Hrun.
  - simpl in Hrun. unfold ret in Hrun. by simplify_eq.
  - rewrite processClusters_cons in Hrun.
    destruct (processCluster ca cd n) as [[ca1 n1]|msg] eqn:Hstep; [|done].
    eapply IH; [|done]. by eapply processCluster_keeps_seeded.
Qed.

Lemma countedIn_here ca cd rest n n2 :
  filteredOut ca cd n = Ok (false, n2) -> countedIn ca (cd :: rest) n cd n2.
Proof. intros Hf. by exists [], rest, ca, n. Qed.

Lemma countedIn_later ca cd rest n ca1 n1 cd' n2 :
  processCluster ca cd n = Ok (ca1, n1) ->
  countedIn ca1 rest n1 cd' n2 ->
  countedIn ca (cd :: rest) n cd' n2.
Proof.
  intros Hstep (pre & post & ca2 & n2' & -> & Hpre & Hf).
  exists (cd :: pre), post, ca2, n2'. split; [done|]. split; [|done].
  by rewrite processClusters_cons, Hstep.
Qed.

(** What no counted record disturbs, a run does not disturb: [R] holds
    from the first accumulator to the last when every counted record,
    being [P], takes an accumulator to one in relation [R]. *)
Lemma processClusters_frame
    (P : ClusterDeployment -> nat -> Prop) (R : relation clusterAccumulator) :
  (forall ca, R ca ca) ->
  (forall a b c, R a b -> R b c -> R a c) ->
  (forall ca cd n n1 ca' n',
     filteredOut ca cd n = Ok (false, n1) -> P cd n1 ->
     processCluster ca cd n = Ok (ca', n') -> R ca ca') ->
  forall items ca n ca' n',
    processClusters ca items n = Ok (ca', n') ->
    (forall cd n2, countedIn ca items n cd n2 -> P cd n2) ->
    R ca ca'.
Proof.
  intros Hrefl Htrans Hstep.
  induction items as [|cd rest IH]; intros ca n ca' n' Hrun HP.
  - simpl in Hrun. unfold ret in Hrun. simplify_eq. apply Hrefl.
  - rewrite processClusters_cons in Hrun.
    destruct (processCluster ca cd n) as [[ca1 n1]|msg] eqn:Hone; [|done].
    apply (Htrans _ ca1).
    + destruct (filteredOut_returns ca cd n) as ([|] & n2 & Hf).
      * rewrite (processCluster_skip _ _ _ _ Hf) in Hone.
        simplify_eq. apply Hrefl.
      * eapply Hstep; [exact Hf| |exact Hone].
        apply HP. by apply countedIn_here.
    + eapply IH; [exact Hrun|]. intros cd' n2 Hin.
      apply HP. by eapply countedIn_later.
Qed.

(** A run in which no counted record of type [t] is installed leaves the
    installed count of [t] as it is. *)
Lemma installed_untouched t ca items n ca' n' :
  processClusters ca items n = Ok (ca', n') ->
  (forall cd n2, countedIn ca items n cd n2 ->
     GetClusterDeploymentType cd = t -> Installed cd = false) ->
  get (installed ca') t = get (installed ca) t.
Proof.
  apply (processClusters_frame
           (fun cd _ => GetClusterDeploymentType cd = t -> Installed cd = false)
           (fun a b => get (installed b) t = get (installed a) t)).
  - done.
  - intros a b c Hab Hbc. by rewrite Hbc.
  - clear. intros ca cd n n1 ca' n' Hf HP Hone.
    destruct (processCluster_counted_inv _ _ _ _ _ _ Hf Hone) as (c & -> & _).
    cbn [installed setConditions].
    rewrite tallied_installed, (get_bucket_entry _ _ (Installed cd)).
    case_bool_decide as Ht; [|by rewrite andb_false_r].
    by rewrite (HP (eq_sym Ht)).
Qed.

(** A run in which every counted record of type [t] is installed or not
    older than the threshold of bucket [b] leaves the count of [t] in
    [b] as it is. *)
Lemma bucket_untouched b t ca items n ca' n' :
  processClusters ca items n = Ok (ca', n') ->
  (forall cd n2, countedIn ca items n cd n2 ->
     GetClusterDeploymentType cd = t ->
     Installed cd = true \/ age n2 cd <= gtDurBucket b) ->
  forall m, uninstalled ca !! b = Some m ->
    exists m', uninstalled ca' !! b = Some m' /\ get m' t = get m t.
Proof.
  apply (processClusters_frame
           (fun cd n2 => GetClusterDeploymentType cd = t ->
                         Installed cd = true \/ age n2 cd <= gtDurBucket b)
           (fun a a' => forall m, uninstalled a !! b = Some m ->
              exists m', uninstalled a' !! b = Some m'
                         /\ get m' t = get m t)).
  - by eauto.
  - intros a1 a2 a3 H12 H23 m Hm.
    destruct (H12 _ Hm) as (m2 & Hm2 & E2).
    destruct (H23 _ Hm2) as (m3 & Hm3 & E3).
    exists m3. split; [done|]. by rewrite E3.
  - clear. intros ca cd n n1 ca' n' Hf HP Hone m Hm.
    destruct (processCluster_counted_inv _ _ _ _ _ _ Hf Hone) as (c & -> & _).
    cbn [uninstalled setConditions]. rewrite tallied_bucket, Hm. simpl.
    eexists. split; [done|]. rewrite get_bucket_entry.
    case_bool_decide as Ht; [|by rewrite andb_false_r].
    destruct (HP (eq_sym Ht)) as [Hi|Hage].
    + by rewrite Hi.
    + destruct (Z.ltb_spec (gtDurBucket b) (age n1 cd)); [lia|].
      by rewrite andb_false_r.
Qed.

(** A run in which no counted record of type [t] has a true condition
    of type [c] leaves the count of [t] under [c] as it is. *)
Lemma condition_untouched c t ca items n ca' n' :
  processClusters ca items n = Ok (ca', n') ->
  (forall cd n2, countedIn ca items n cd n2 ->
     GetClusterDeploymentType cd = t -> trueCount c (Conditions cd) = 0%nat) ->
  forall m, conditions ca !! c = Some m ->
    exists m', conditions ca' !! c = Some m' /\ get m' t = get m t.
Proof.
  apply (processClusters_frame
           (fun cd _ => GetClusterDeploymentType cd = t ->
                        trueCount c (Conditions cd) = 0%nat)
           (fun a a' => forall m, conditions a !! c = Some m ->
              exists m', conditions a' !! c = Some m'
                         /\ get m' t = get m t)).
  - by eauto.
  - intros a1 a2 a3 H12 H23 m Hm.
    destruct (H12 _ Hm) as (m2 & Hm2 & E2).
    destruct (H23 _ Hm2) as (m3 & Hm3 & E3).
    exists m3. split; [done|]. by rewrite E3.
  - clear. intros ca cd n n1 ca' n' Hf HP Hone m Hm.
    apply processCluster_inv in Hone
      as [[Hf' _]|(n2 & cs & _ & Hcs & -> & _)]; [congruence|].
    cbn [conditions setConditions].
    destruct (processConditions_counts _ _ _ _ Hcs c
                (seed (GetClusterDeploymentType cd) m))
      as (m' & Hm' & Hget & Hother); [by rewrite lookup_fmap, Hm|].
    exists m'. split; [done|].
    destruct (decide (t = GetClusterDeploymentType cd)) as [->|Hne].
    + by rewrite Hget, (HP eq_refl), get_seed.
    + unfold get at 1. rewrite Hother by done. apply get_seed.
Qed.

(** C3. After a snapshot is processed, the type of every record that
    passed the filter has an entry in the total map, in the installed
    map, in the map of every configured bucket and in the map of every
    known condition type, and an entry that was never incremented is
    zero: the installed entry when no counted record of the type is
    installed, the entry of a bucket when every counted record of the
    type is installed or not older than the threshold of the bucket, the
    entry under a condition type when no counted record of the type has
    a true condition of that type. (The total of such a type has been
    incremented by the record itself.) Processing returns when the true
    conditions of the records are all of known types. *)
Theorem counted_types_seeded_everywhere cutoff buckets ca0 items n :
  newClusterAccumulator cutoff buckets = Some ca0 ->
  (forallb conditionsKnown items = true ->
   exists ca' n', processClusters ca0 items n = Ok (ca', n'))
  /\ forall ca' n',
       processClusters ca0 items n = Ok (ca', n') ->
       forall cd n2,
         countedIn ca0 items n cd n2 ->
         (is_Some (total ca' !! GetClusterDeploymentType cd)
          /\ is_Some (installed ca' !! GetClusterDeploymentType cd)
          /\ (forall b, b ∈ buckets ->
                exists m, uninstalled ca' !! b = Some m
                          /\ is_Some (m !! GetClusterDeploymentType cd))
          /\ (forall c, c ∈ AllClusterDeploymentConditions ->
                exists m, conditions ca' !! c = Some m
                          /\ is_Some (m !! GetClusterDeploymentType cd)))
         /\ ((forall cd' n2', countedIn ca0 items n cd' n2' ->
                GetClusterDeploymentType cd' = GetClusterDeploymentType cd ->
                Installed cd' = false) ->
             installed ca' !! GetClusterDeploymentType cd = Some 0)
         /\ (forall b, b ∈ buckets ->
               (forall cd' n2', countedIn ca0 items n cd' n2' ->
                  GetClusterDeploymentType cd' = GetClusterDeploymentType cd ->
                  Installed cd' = true \/ age n2' cd' <= gtDurBucket b) ->
               exists m, uninstalled ca' !! b = Some m
                         /\ m !! GetClusterDeploymentType cd = Some 0)
         /\ (forall c, c ∈ AllClusterDeploymentConditions ->
               (forall cd' n2', countedIn ca0 items n cd' n2' ->
                  GetClusterDeploymentType cd' = GetClusterDeploymentType cd ->
                  trueCount c (Conditions cd') = 0%nat) ->
               exists m, conditions ca' !! c = Some m
                         /\ m !! GetClusterDeploymentType cd = Some 0).
Proof.
  intros Hnew.
  destruct (newClusterAccumulator_Some _ _ _ Hnew)
    as (Hcfg & _ & _ & Hi0 & Hu0 & Hc0).
  split; [by apply (processClusters_returns buckets)|].
  intros ca' n' Hrun cd n2 (pre & post & ca1 & n1 & -> & Hpre & Hf).
  assert (Hcounted : countedIn ca0 (pre ++ cd :: post) n cd n2)
    by (by exists pre, post, ca1, n1).
  destruct (processClusters_split _ _ _ _ _ _ _ Hrun)
    as (ca1' & n1' & ca2 & n2' & Hpre' & Hstep & Hpost).
  rewrite Hpre in Hpre'. injection Hpre' as <- <-.
  pose proof (processCluster_seeds _ _ _ _ _ _ Hf Hstep) as Hs.
  pose proof (processClusters_keeps_seeded _ _ _ _ _ _ Hs Hpost)
    as (Ht & Hi & Hu & Hc).
  pose proof (processClusters_configured _ _ _ _ _ _ Hcfg Hrun) as Hcfg'.
  assert (Hzero : forall (m : gmap string Z) t,
            is_Some (m !! t) -> get m t = 0 -> m !! t = Some 0).
  { intros m t [v Hv]. unfold get. rewrite Hv. simpl. by intros ->. }
  split; [|split; [|split]].
  - repeat split; try done.
    + intros b Hb. destruct (proj2 (cfg_buckets _ _ Hcfg' b) Hb) as [m Hm].
      exists m. split; [done|]. by eapply Hu.
    + intros c Hin.
      destruct (proj2 (cfg_conditions _ _ Hcfg' c) Hin) as [m Hm].
      exists m. split; [done|]. by eapply Hc.
  - intros Hnever. apply Hzero; [done|].
    rewrite (installed_untouched _ _ _ _ _ _ Hrun Hnever), Hi0.
    apply get_empty.
  - intros b Hb Hnever.
    destruct (proj2 (cfg_buckets _ _ Hcfg b) Hb) as [m0 Hm0].
    destruct (bucket_untouched _ _ _ _ _ _ _ Hrun Hnever _ Hm0)
      as (m & Hm & Hget).
    exists m. split; [done|]. apply Hzero; [by eapply Hu|].
    rewrite Hget, (Hu0 _ _ Hm0). apply get_empty.
  - intros c Hin Hnever.
    destruct (proj2 (cfg_conditions _ _ Hcfg c) Hin) as [m0 Hm0].
    destruct (condition_untouched _ _ _ _ _ _ _ Hrun Hnever _ Hm0)
      as (m & Hm & Hget).
    exists m. split; [done|]. apply Hzero; [by eapply Hc|].
    rewrite Hget, (Hc0 _ _ Hm0). apply get_empty.
Qed.

(** ** Counting invariants *)

Lemma newClusterAccumulator_counts cutoff buckets ca :
  newClusterAccumulator cutoff buckets = Some ca ->
  counts 0 ca /\ antitone ca.
Proof.
  intros (_ & _ & Ht & Hi & Hu & _)%newClusterAccumulator_Some. split.
  - intros t. rewrite Ht, Hi, get_empty. repeat split; try lia.
    all: rewrite (Hu _ _ H), get_empty; lia.
  - intros b1 b2 m1 m2 t H1 H2 _.
    rewrite (Hu _ _ H1), (Hu _ _ H2), get_empty. lia.
Qed.

Lemma counts_mono N N' ca : N <= N' -> counts N ca -> counts N' ca.
Proof.
  intros Hle Hc t. destruct (Hc t) as (H0 & Hi & Ht & Hu).
  split; [done|]. split; [done|]. split; [lia|done].
Qed.

Lemma tallied_get_total ca cd D t :
  get (total (tallied ca cd D)) t =
    if bool_decide (t = GetClusterDeploymentType cd)
    then GoInt.incr (get (total ca) t) else get (total ca) t.
Proof. rewrite tallied_total. apply (get_bucket_entry _ _ true). Qed.

Lemma tallied_get_installed ca cd D t :
  get (installed (tallied ca cd D)) t =
    if Installed cd && bool_decide (t = GetClusterDeploymentType cd)
    then GoInt.incr (get (installed ca) t) else get (installed ca) t.
Proof.
  rewrite tallied_installed.
  apply (get_bucket_entry _ _ (Installed cd)).
Qed.

Lemma tallied_get_bucket ca cd D b m' t :
  uninstalled (tallied ca cd D) !! b = Some m' ->
  exists m,
    uninstalled ca !! b = Some m
    /\ get m' t =
         if negb (Installed cd) && (gtDurBucket b <? D)
            && bool_decide (t = GetClusterDeploymentType cd)
         then GoInt.incr (get m t) else get m t.
Proof.
  rewrite tallied_bucket.
  destruct (uninstalled ca !! b) as [m|]; [|done]. simpl. intros [= <-].
  exists m. split; [done|]. apply get_bucket_entry.
Qed.

Lemma counted_counts N ca cd D c :
  counts N ca -> N < GoInt.maxInt ->
  counts (N + 1) (setConditions (tallied ca cd D) c).
Proof.
  intros Hc HN t. destruct (Hc t) as (Hi0 & Hit & HtN & Hu).
  cbn [total installed uninstalled setConditions].
  rewrite tallied_get_total, tallied_get_installed.
  assert (Ht1 : GoInt.incr (get (total ca) t) = get (total ca) t + 1)
    by (apply incr_no_overflow; unfold GoInt.minInt; lia).
  assert (Hi1 : GoInt.incr (get (installed ca) t) = get (installed ca) t + 1)
    by (apply incr_no_overflow; unfold GoInt.minInt; lia).
  rewrite Ht1, Hi1.
  repeat split.
  - destruct (Installed cd && _); lia.
  - destruct (Installed cd), (bool_decide _); simpl; lia.
  - destruct (bool_decide _); lia.
  - destruct (tallied_get_bucket _ _ _ _ _ t H) as (m0 & Hm0 & ->).
    destruct (Hu _ _ Hm0) as (H0 & Hsum).
    destruct (_ && _ && _); [|done].
    rewrite incr_no_overflow by (unfold GoInt.minInt; lia). lia.
  - destruct (tallied_get_bucket _ _ _ _ _ t H) as (m0 & Hm0 & ->).
    destruct (Hu _ _ Hm0) as (H0 & Hsum).
    assert (Hm1 : GoInt.incr (get m0 t) = get m0 t + 1)
      by (apply incr_no_overflow; unfold GoInt.minInt; lia).
    rewrite Hm1.
    destruct (Installed cd), (gtDurBucket b <? D), (bool_decide _);
      simpl; lia.
Qed.

Lemma counted_antitone N ca cd D c :
  counts N ca -> N < GoInt.maxInt -> antitone ca ->
  antitone (setConditions (tallied ca cd D) c).
Proof.
  intros Hc HN Ha b1 b2 m1' m2' t H1 H2 Hle.
  cbn [uninstalled setConditions] in H1, H2.
  destruct (tallied_get_bucket _ _ _ _ _ t H1) as (m1 & Hm1 & ->).
  destruct (tallied_get_bucket _ _ _ _ _ t H2) as (m2 & Hm2 & ->).
  pose proof (Ha _ _ _ _ t Hm1 Hm2 Hle) as Hanti.
  destruct (Hc t) as (Hi0 & Hit & HtN & Hu).
  destruct (Hu _ _ Hm1) as (H10 & H1s), (Hu _ _ Hm2) as (H20 & H2s).
  rewrite !incr_no_overflow by (unfold GoInt.minInt; lia).
  destruct (Z.ltb_spec (gtDurBucket b1) D), (Z.ltb_spec (gtDurBucket b2) D),
    (Installed cd), (bool_decide _); simpl; lia.
Qed.

Lemma processCluster_counts N ca cd n ca' n' :
  counts N ca -> N < GoInt.maxInt -> antitone ca ->
  processCluster ca cd n = Ok (ca', n') ->
  counts (N + 1) ca' /\ antitone ca'.
Proof.
  intros Hc HN Ha [[_ ->]|(n1 & c & _ & _ & -> & _)]%processCluster_inv.
  - split; [|done]. eapply counts_mono; [|done]. lia.
  - split; [by apply counted_counts|by eapply counted_antitone].
Qed.

Lemma processClusters_counts N ca items n ca' n' :
  counts N ca -> antitone ca ->
  N + Z.of_nat (length items) <= GoInt.maxInt ->
  processClusters ca items n = Ok (ca', n') ->
  counts (N + Z.of_nat (length items)) ca' /\ antitone ca'.
Proof.
  revert N ca n. induction items as [|cd rest IH]; intros N ca n Hc Ha HN Hrun.
  - simpl in Hrun. unfold ret in Hrun. simplify_eq.
    split; [|done]. eapply counts_mono; [|done]. simpl. lia.
  - rewrite processClusters_cons in Hrun.
    destruct (processCluster ca cd n) as [[ca1 n1]|msg] eqn:Hstep; [|done].
    cbn [length] in HN |- *.
    assert (HN1 : N < GoInt.maxInt) by lia.
    assert (HN2 : N + 1 + Z.of_nat (length rest) <= GoInt.maxInt) by lia.
    destruct (processCluster_counts N _ _ _ _ _ Hc HN1 Ha Hstep)
      as [Hc1 Ha1].
    destruct (IH (N + 1) _ _ Hc1 Ha1 HN2 Hrun) as [Hc' Ha'].
    split; [|done]. eapply counts_mono; [|done]. lia.
Qed.

(** C9. After a snapshot is processed, for every type the installed
    count is at most the total and, in every configured bucket, the count
    is at most the total less the installed count; and on the way every
    record that passes the filter adds exactly 1 to the total of its type
    and nothing to the total of any other type, while a record that is
    filtered out adds nothing. The length bound holds of every Go slice.
    Processing returns when the true conditions of the records are all of
    known types. *)
Theorem installed_and_buckets_within_total cutoff buckets ca0 items n :
  newClusterAccumulator cutoff buckets = Some ca0 ->
  Z.of_nat (length items) <= GoInt.maxInt ->
  (forallb conditionsKnown items = true ->
   exists ca' n', processClusters ca0 items n = Ok (ca', n'))
  /\ forall ca' n',
       processClusters ca0 items n = Ok (ca', n') ->
       (forall t, get (installed ca') t <= get (total ca') t)
       /\ (forall b, b ∈ buckets ->
             exists m, uninstalled ca' !! b = Some m
               /\ forall t,
                    get m t <= get (total ca') t - get (installed ca') t)
       /\ (forall pre cd post ca1 n1,
             items = pre ++ cd :: post ->
             processClusters ca0 pre n = Ok (ca1, n1) ->
             exists ca2 n2,
               processCluster ca1 cd n1 = Ok (ca2, n2)
               /\ (forall n1', filteredOut ca1 cd n1 = Ok (false, n1') ->
                     get (total ca2) (GetClusterDeploymentType cd) =
                       get (total ca1) (GetClusterDeploymentType cd) + 1
                     /\ forall t, t <> GetClusterDeploymentType cd ->
                          get (total ca2) t = get (total ca1) t)
               /\ (forall n1', filteredOut ca1 cd n1 = Ok (true, n1') ->
                     ca2 = ca1)).
Proof.
  intros Hnew Hlen.
  destruct (newClusterAccumulator_Some _ _ _ Hnew) as (Hcfg & _).
  destruct (newClusterAccumulator_counts _ _ _ Hnew) as (Hc0 & Ha0).
  split; [by apply (processClusters_returns buckets)|].
  intros ca' n' Hrun.
  assert (Hfit : 0 + Z.of_nat (length items) <= GoInt.maxInt) by lia.
  destruct (processClusters_counts 0 _ _ _ _ _ Hc0 Ha0 Hfit Hrun)
    as [Hc' _].
  pose proof (processClusters_configured _ _ _ _ _ _ Hcfg Hrun) as Hcfg'.
  split; [|split].
  - intros t. by destruct (Hc' t) as (_ & ? & _).
  - intros b Hb. destruct (proj2 (cfg_buckets _ _ Hcfg' b) Hb) as [m Hm].
    exists m. split; [done|]. intros t.
    destruct (Hc' t) as (_ & _ & _ & Hu). destruct (Hu _ _ Hm). lia.
  - intros pre cd post ca1 n1 -> Hpre.
    destruct (processClusters_split _ _ _ _ _ _ _ Hrun)
      as (ca1' & n1' & ca2 & n2 & Hpre' & Hstep & _).
    rewrite Hpre in Hpre'. injection Hpre' as <- <-.
    exists ca2, n2. split; [done|].
    assert (Hfit1 : 0 + Z.of_nat (length pre) <= GoInt.maxInt)
      by (rewrite length_app in Hlen; lia).
    destruct (processClusters_counts 0 _ _ _ _ _ Hc0 Ha0 Hfit1 Hpre)
      as [Hc1 _].
    apply processCluster_inv in Hstep
      as [[Hf ->]|(n1' & c & Hf & _ & -> & _)].
    + split; [intros; congruence|done].
    + split; [|intros; congruence]. intros _ _.
      cbn [total setConditions]. split.
      * rewrite tallied_get_total, bool_decide_eq_true_2 by done.
        destruct (Hc1 (GetClusterDeploymentType cd)) as (? & ? & ? & _).
        apply incr_no_overflow. rewrite length_app in Hlen.
        cbn [length] in Hlen. unfold GoInt.minInt. lia.
      * intros t Ht. by rewrite tallied_get_total, bool_decide_eq_false_2.
Qed.

(** C10. After a snapshot is processed, of two configured buckets the one
    with the larger (or the same) parsed threshold holds, for every type,
    a count that is at most the count of the other. Processing returns
    when the true conditions of the records are all of known types. *)
Theorem bucket_counts_antitone cutoff buckets ca0 items n :
  newClusterAccumulator cutoff buckets = Some ca0 ->
  Z.of_nat (length items) <= GoInt.maxInt ->
  (forallb conditionsKnown items = true ->
   exists ca' n', processClusters ca0 items n = Ok (ca', n'))
  /\ forall ca' n',
       processClusters ca0 items n = Ok (ca', n') ->
       forall b1 b2 threshold1 threshold2,
         b1 ∈ buckets -> b2 ∈ buckets ->
         ParseDuration b1 = Some threshold1 ->
         ParseDuration b2 = Some threshold2 ->
         threshold1 <= threshold2 ->
         exists m1 m2,
           uninstalled ca' !! b1 = Some m1
           /\ uninstalled ca' !! b2 = Some m2
           /\ forall t, get m2 t <= get m1 t.
Proof.
  intros Hnew Hlen.
  destruct (newClusterAccumulator_Some _ _ _ Hnew) as (Hcfg & _).
  destruct (newClusterAccumulator_counts _ _ _ Hnew) as (Hc0 & Ha0).
  split; [by apply (processClusters_returns buckets)|].
  intros ca' n' Hrun.
  assert (Hfit : 0 + Z.of_nat (length items) <= GoInt.maxInt) by lia.
  destruct (processClusters_counts 0 _ _ _ _ _ Hc0 Ha0 Hfit Hrun)
    as [_ Ha'].
  pose proof (processClusters_configured _ _ _ _ _ _ Hcfg Hrun) as Hcfg'.
  intros b1 b2 threshold1 threshold2 Hb1 Hb2 Hp1 Hp2 Hle.
  destruct (proj2 (cfg_buckets _ _ Hcfg' b1) Hb1) as [m1 Hm1].
  destruct (proj2 (cfg_buckets _ _ Hcfg' b2) Hb2) as [m2 Hm2].
  exists m1, m2. repeat split; try done.
  intros t. eapply Ha'; [done..|].
  unfold gtDurBucket. by rewrite Hp1, Hp2.
Qed.

(** ** A pass whose accumulator cannot be built *)

(** The branch of a pass that handles an error of the constructor: the
    error is logged and the pass returns, before the jobs are listed.
    [Start] gives the constructor six literals, so the branch is taken
    only under a [ParseDuration] that refuses one of them, which
    time.ParseDuration does not ([startBuckets_parse_built] below). *)
Lemma constructor_error_returns w items durStr n :
  clusterDeployments w = Some items ->
  durStr ∈ startBuckets ->
  ParseDuration durStr = None ->
  newClusterAccumulator None startBuckets = None
  /\ pass w n =
       ([Log Info "calculating metrics across all ClusterDeployments";
         Log Debug "loaded cluster deployments";
         Log Error "unable to calculate metrics"],
        Ok (tt, S n))
  /\ forall rest,
       until (w :: rest) n =
         ([Log Info "calculating metrics across all ClusterDeployments";
           Log Debug "loaded cluster deployments";
           Log Error "unable to calculate metrics"]
          ++ (until rest (S n)).1,
          (until rest (S n)).2).
Proof.
  intros Hitems Hin Hparse.
  assert (Hnew : newClusterAccumulator None startBuckets = None)
    by (apply newClusterAccumulator_None; eauto).
  assert (Hpass : pass w n =
    ([Log Info "calculating metrics across all ClusterDeployments";
      Log Debug "loaded cluster deployments";
      Log Error "unable to calculate metrics"], Ok (tt, S n))).
  { unfold pass, clusterMetrics. by rewrite Hitems, Hnew. }
  split; [done|]. split; [done|]. intros rest. cbn [until]. rewrite Hpass.
  by destruct (until rest (S n)).
Qed.

(** A pass whose listing of the cluster deployments fails does go on to
    the jobs: the two failures are handled differently. *)
Lemma listing_failure_goes_on w n :
  clusterDeployments w = None ->
  pass w n =
    ([Log Info "calculating metrics across all ClusterDeployments";
      Log Error "error listing cluster deployments";
      Log Info "calculating metrics across all install jobs"]
     ++ installJobMetrics (installJobs w)
     ++ [Log Info "calculating metrics across all uninstall jobs"]
     ++ uninstallJobMetrics (uninstallJobs w)
     ++ [Log Info "metrics calculation complete"],
     Ok (tt, S (S n))).
Proof. intros H. unfold pass, clusterMetrics. by rewrite H. Qed.

(** A panic of [processCluster] ends the pass and the loop. *)
Lemma panic_ends_loop w items ca0 msg rest n :
  clusterDeployments w = Some items ->
  newClusterAccumulator None startBuckets = Some ca0 ->
  processClusters ca0 items (S n) = Panic msg ->
  until (w :: rest) n =
    ([Log Info "calculating metrics across all ClusterDeployments";
      Log Debug "loaded cluster deployments"],
     Crashed msg).
Proof.
  intros Hitems Hnew Hrun. cbn [until].
  unfold pass, clusterMetrics. by rewrite Hitems, Hnew, Hrun.
Qed.

(** * Further properties *)

(** ** The job classifier, continued *)

Lemma sumZ_app (l1 l2 : list Z) : sumZ (l1 ++ l2) = sumZ l1 + sumZ l2.
Proof.
  unfold sumZ. induction l1 as [|x l1 IH]; simpl; [done|]. rewrite IH. lia.
Qed.

Lemma sumZ_Permutation (l1 l2 : list Z) : l1 ≡ₚ l2 -> sumZ l1 = sumZ l2.
Proof.
  unfold sumZ. induction 1; simpl; lia.
Qed.

Lemma processJobs_sums (jobs : list Job) :
  Z.of_nat (length jobs) <= GoInt.maxInt ->
  processJobs jobs =
    (sumZ ((fun j => (contribution j).1) <$> jobs),
     sumZ ((fun j => (contribution j).2) <$> jobs)).
Proof.
  intros Hlen. unfold processJobs. rewrite fold_jobStep by lia. f_equal; lia.
Qed.

Lemma contribution_incomplete (job : Job) :
  0 <= (contribution job).1 /\ 0 <= (contribution job).2
  /\ (contribution job).1 + (contribution job).2 =
       if incomplete job then 1 else 0.
Proof.
  unfold contribution, jobStep, incomplete.
  destruct (CompletionTime job); simpl; [lia|].
  destruct (0 <? Failed job); change (GoInt.incr 0) with 1; simpl; lia.
Qed.

(** X1. The two totals of [processJobs] are not negative and add up to
    the number of jobs that have no completion time: every such job is in
    exactly one of them, and no completed job is in either. *)
Theorem processJobs_partitions_incomplete (jobs : list Job) :
  Z.of_nat (length jobs) <= GoInt.maxInt ->
  0 <= (processJobs jobs).1
  /\ 0 <= (processJobs jobs).2
  /\ (processJobs jobs).1 + (processJobs jobs).2 =
       Z.of_nat (length (List.filter incomplete jobs)).
Proof.
  intros Hlen. rewrite processJobs_sums by done. cbn [fst snd]. clear Hlen.
  induction jobs as [|job jobs IH]; [simpl; lia|].
  rewrite !fmap_cons. unfold sumZ in *. cbn [foldr List.filter].
  pose proof (contribution_incomplete job) as (H1 & H2 & H3).
  destruct (incomplete job); cbn [length]; lia.
Qed.

(** X2. Classifying two lists of jobs one after the other in one call
    gives the sums of what classifying each gives. *)
Theorem processJobs_app (jobs1 jobs2 : list Job) :
  Z.of_nat (length (jobs1 ++ jobs2)) <= GoInt.maxInt ->
  processJobs (jobs1 ++ jobs2) =
    ((processJobs jobs1).1 + (processJobs jobs2).1,
     (processJobs jobs1).2 + (processJobs jobs2).2).
Proof.
  intros Hlen. rewrite length_app in Hlen.
  rewrite !processJobs_sums by (try rewrite length_app; lia).
  cbn [fst snd]. by rewrite !fmap_app, !sumZ_app.
Qed.

(** X3. The order in which the API server lists the jobs does not show in
    the totals. *)
Theorem processJobs_Permutation (jobs jobs' : list Job) :
  jobs ≡ₚ jobs' ->
  Z.of_nat (length jobs) <= GoInt.maxInt ->
  processJobs jobs = processJobs jobs'.
Proof.
  intros Hp Hlen.
  rewrite !processJobs_sums by (try rewrite <- Hp; done).
  f_equal; apply sumZ_Permutation; by apply fmap_Permutation.
Qed.

(** ** The constructor, continued *)

Lemma newClusterAccumulator_lookups cutoff buckets ca :
  newClusterAccumulator cutoff buckets = Some ca ->
  (forall b, uninstalled ca !! b = if decide (b ∈ buckets) then Some ∅ else None)
  /\ (forall c, conditions ca !! c =
                  if decide (c ∈ AllClusterDeploymentConditions)
                  then Some ∅ else None).
Proof.
  intros Hnew.
  destruct (newClusterAccumulator_Some _ _ _ Hnew)
    as (Hcfg & _ & _ & _ & Hu & Hc).
  split.
  - intros b. destruct (decide (b ∈ buckets)) as [Hin|Hnin].
    + destruct (proj2 (cfg_buckets _ _ Hcfg b) Hin) as [m Hm].
      by rewrite Hm, (Hu _ _ Hm).
    + destruct (uninstalled ca !! b) eqn:E; [|done].
      exfalso. apply Hnin, (cfg_buckets _ _ Hcfg). by rewrite E.
  - intros c. destruct (decide (c ∈ AllClusterDeploymentConditions))
      as [Hin|Hnin].
    + destruct (proj2 (cfg_conditions _ _ Hcfg c) Hin) as [m Hm].
      by rewrite Hm, (Hc _ _ Hm).
    + destruct (conditions ca !! c) eqn:E; [|done].
      exfalso. apply Hnin, (cfg_conditions _ _ Hcfg). by rewrite E.
Qed.

(** X4. The constructor fails exactly when one of the bucket strings does
    not parse as a duration. *)
Theorem construction_fails_iff_unparsable cutoff buckets :
  newClusterAccumulator cutoff buckets = None <->
  exists durStr, durStr ∈ buckets /\ ParseDuration durStr = None.
Proof. apply newClusterAccumulator_None. Qed.

(** X5. The accumulator the constructor returns holds the cutoff it was
    given, empty total and installed maps, an empty map under each of the
    bucket strings and under nothing else, and an empty map under each of
    the known condition types and under nothing else. *)
Theorem constructed_accumulator_is_empty cutoff buckets ca :
  newClusterAccumulator cutoff buckets = Some ca ->
  clusterCreationTimeFilter ca = cutoff
  /\ total ca = ∅
  /\ installed ca = ∅
  /\ (forall b, uninstalled ca !! b =
                  if decide (b ∈ buckets) then Some ∅ else None)
  /\ (forall c, conditions ca !! c =
                  if decide (c ∈ AllClusterDeploymentConditions)
                  then Some ∅ else None).
Proof.
  intros Hnew.
  destruct (newClusterAccumulator_Some _ _ _ Hnew) as (_ & Hf & Ht & Hi & _).
  destruct (newClusterAccumulator_lookups _ _ _ Hnew) as (Hu & Hc).
  by repeat split.
Qed.

(** X6. Neither the order of the bucket strings nor a string given twice
    shows in the accumulator: two lists with the same strings build the
    same accumulator. *)
Theorem constructed_accumulator_by_bucket_set cutoff buckets buckets' ca :
  (forall b, b ∈ buckets <-> b ∈ buckets') ->
  newClusterAccumulator cutoff buckets = Some ca ->
  newClusterAccumulator cutoff buckets' = Some ca.
Proof.
  intros Hsame Hnew.
  destruct (newClusterAccumulator cutoff buckets') as [ca2|] eqn:Hnew2.
  - destruct (newClusterAccumulator_Some _ _ _ Hnew) as (_ & Hf & Ht & Hi & _).
    destruct (newClusterAccumulator_Some _ _ _ Hnew2)
      as (_ & Hf2 & Ht2 & Hi2 & _).
    destruct (newClusterAccumulator_lookups _ _ _ Hnew) as (Hu & Hc).
    destruct (newClusterAccumulator_lookups _ _ _ Hnew2) as (Hu2 & Hc2).
    f_equal. destruct ca, ca2; simpl in *. subst. f_equal.
    + apply map_eq. intros b. rewrite Hu, Hu2.
      destruct (decide (b ∈ buckets)) as [H1|H1],
        (decide (b ∈ buckets')) as [H2|H2]; try done.
      * exfalso. apply H2. by apply Hsame.
      * exfalso. apply H1. by apply Hsame.
    + apply map_eq. intros c. by rewrite Hc, Hc2.
  - apply newClusterAccumulator_None in Hnew2 as (durStr & Hin & Hp).
    assert (Hnone : newClusterAccumulator cutoff buckets = None).
    { apply newClusterAccumulator_None. exists durStr.
      split; [by apply Hsame|done]. }
    congruence.
Qed.

(** ** Seeding a type, continued *)

Lemma lookup_seed (k t : string) (m : gmap string Z) :
  seed k m !! t = if decide (t = k) then Some (get m k) else m !! t.
Proof.
  case_decide as Ht.
  - subst t. apply seed_lookup.
  - unfold seed. destruct (m !! k); [done|]. by rewrite lookup_insert_ne.
Qed.

Lemma seed_comm (a b : string) (m : gmap string Z) :
  seed a (seed b m) = seed b (seed a m).
Proof.
  apply map_eq. intros k. rewrite !lookup_seed.
  repeat case_decide; subst; rewrite ?get_seed; done.
Qed.

(** X7. Seeding is idempotent and the order in which two types are
    seeded does not matter. *)
Theorem ensureClusterTypeBuckets_idempotent_commutative ca a b :
  ensureClusterTypeBuckets (ensureClusterTypeBuckets ca a) a
  = ensureClusterTypeBuckets ca a
  /\ ensureClusterTypeBuckets (ensureClusterTypeBuckets ca a) b
     = ensureClusterTypeBuckets (ensureClusterTypeBuckets ca b) a.
Proof.
  split; unfold ensureClusterTypeBuckets; simpl.
  - rewrite !seed_idemp, <- !map_fmap_compose.
    f_equal; apply map_fmap_ext; intros; apply seed_idemp.
  - rewrite <- !map_fmap_compose.
    f_equal; try apply seed_comm; apply map_fmap_ext; intros; apply seed_comm.
Qed.

(** X8. Seeding a type creates what is missing and touches nothing else:
    afterwards the type has an entry in every map, and every counter of
    every type reads what it read before (a fresh entry is zero, as a
    missing entry reads). No bucket and no condition type is added or
    dropped. *)
Theorem ensureClusterTypeBuckets_seeds_and_keeps ca clusterType :
  seeded clusterType (ensureClusterTypeBuckets ca clusterType)
  /\ (forall t, get (total (ensureClusterTypeBuckets ca clusterType)) t
                = get (total ca) t)
  /\ (forall t, get (installed (ensureClusterTypeBuckets ca clusterType)) t
                = get (installed ca) t)
  /\ (forall b,
        uninstalled (ensureClusterTypeBuckets ca clusterType) !! b
        = seed clusterType <$> uninstalled ca !! b)
  /\ (forall c,
        conditions (ensureClusterTypeBuckets ca clusterType) !! c
        = seed clusterType <$> conditions ca !! c)
  /\ (forall m t, get (seed clusterType m) t = get m t).
Proof.
  unfold ensureClusterTypeBuckets, seeded. simpl.
  repeat split.
  - apply seed_is_Some. by left.
  - apply seed_is_Some. by left.
  - intros b m. rewrite lookup_fmap.
    destruct (uninstalled ca !! b); [|done]. simpl. intros [= <-].
    apply seed_is_Some. by left.
  - intros c m. rewrite lookup_fmap.
    destruct (conditions ca !! c); [|done]. simpl. intros [= <-].
    apply seed_is_Some. by left.
  - intros t. apply get_seed.
  - intros t. apply get_seed.
  - intros b. apply lookup_fmap.
  - intros c. apply lookup_fmap.
  - intros m t. apply get_seed.
Qed.

(** ** The conditions of a record, continued *)

(** X9. A record that is counted adds, under every condition type of the
    accumulator, to the counter of its type once for each of its
    conditions of that condition type whose status is [True], whether the
    record is installed or not; conditions of any other status add
    nothing, and the counters of the other types do not move. *)
Theorem true_conditions_counted ca cd n n1 ca' n' :
  filteredOut ca cd n = Ok (false, n1) ->
  processCluster ca cd n = Ok (ca', n') ->
  forall c m, conditions ca !! c = Some m ->
    exists m',
      conditions ca' !! c = Some m'
      /\ get m' (GetClusterDeploymentType cd) =
           Nat.iter (trueCount c (Conditions cd)) GoInt.incr
             (get m (GetClusterDeploymentType cd))
      /\ forall t, t <> GetClusterDeploymentType cd -> get m' t = get m t.
Proof.
  intros Hf [[Hf' _]|(n2 & cs & _ & Hc & -> & _)]%processCluster_inv;
    [congruence|].
  intros c m Hm. cbn [conditions setConditions].
  destruct (processConditions_counts _ _ _ _ Hc c
              (seed (GetClusterDeploymentType cd) m))
    as (m' & Hm' & Hget & Hother); [by rewrite lookup_fmap, Hm|].
  exists m'. split; [done|]. split.
  - by rewrite Hget, get_seed.
  - intros t Ht. unfold get at 1. rewrite Hother by done.
    apply get_seed.
Qed.

(** ** What processing keeps *)

Lemma processClusters_filter ca items n ca' n' :
  processClusters ca items n = Ok (ca', n') ->
  clusterCreationTimeFilter ca' = clusterCreationTimeFilter ca.
Proof.
  revert ca n. induction items as [|cd rest IH]; intros ca n Hrun.
  - simpl in Hrun. unfold ret in Hrun. by simplify_eq.
  - rewrite processClusters_cons in Hrun.
    destruct (processCluster ca cd n) as [[ca1 n1]|msg] eqn:Hstep; [|done].
    rewrite (IH _ _ Hrun). by eapply processCluster_filter.
Qed.

(** X10. Processing a snapshot keeps the configuration of the
    accumulator: the cutoff, the bucket strings that are keys of the
    uninstalled map and the condition types that are keys of the
    conditions map are afterwards what they were. *)
Theorem processing_keeps_configuration ca items n ca' n' :
  processClusters ca items n = Ok (ca', n') ->
  clusterCreationTimeFilter ca' = clusterCreationTimeFilter ca
  /\ (forall b, is_Some (uninstalled ca' !! b)
                <-> is_Some (uninstalled ca !! b))
  /\ (forall c, is_Some (conditions ca' !! c)
                <-> is_Some (conditions ca !! c)).
Proof.
  intros Hrun. split; [by eapply processClusters_filter|].
  revert ca n Hrun. induction items as [|cd rest IH]; intros ca n Hrun.
  - simpl in Hrun. unfold ret in Hrun. by simplify_eq.
  - rewrite processClusters_cons in Hrun.
    destruct (processCluster ca cd n) as [[ca1 n1]|msg] eqn:Hstep; [|done].
    destruct (IH _ _ Hrun) as [Hu Hc].
    apply processCluster_inv in Hstep
      as [[_ ->]|(n2 & cs & _ & Hcs & -> & _)]; [done|].
    split.
    + intros b. rewrite Hu. cbn [uninstalled setConditions].
      by rewrite tallied_bucket, fmap_is_Some.
    + intros c. rewrite Hc. cbn [conditions setConditions].
      pose proof (processConditions_shape _ _ _ _ Hcs c) as Hs.
      rewrite lookup_fmap in Hs.
      destruct (conditions ca !! c), (cs !! c); simpl in Hs;
        try done; split; intros [? ?]; by eauto.
Qed.

(** ** Within the cutoff *)

(** X11. Under a cutoff, a record whose age is at most the cutoff (the
    cutoff itself included) is counted: [processCluster] returns on it
    when its true conditions are of known types, and whenever it returns
    the total of its type is incremented and its type is seeded in every
    map. *)
Theorem within_cutoff_is_counted buckets ca cd n cutoff :
  configured buckets ca ->
  clusterCreationTimeFilter ca = Some cutoff ->
  age n cd <= cutoff ->
  (conditionsKnown cd = true ->
   exists ca' n', processCluster ca cd n = Ok (ca', n'))
  /\ forall ca' n',
       processCluster ca cd n = Ok (ca', n') ->
       get (total ca') (GetClusterDeploymentType cd) =
         GoInt.incr (get (total ca) (GetClusterDeploymentType cd))
       /\ seeded (GetClusterDeploymentType cd) ca'.
Proof.
  intros Hcfg Hcut Hage.
  split; [by apply (processCluster_returns buckets)|].
  intros ca' n' Hrun.
  assert (Hf : filteredOut ca cd n = Ok (false, S n)).
  { rewrite (filteredOut_Some _ _ _ _ Hcut).
    by destruct (Z.ltb_spec cutoff (age n cd)); [lia|]. }
  split; [|by eapply processCluster_seeds].
  destruct (processCluster_counted_inv _ _ _ _ _ _ Hf Hrun) as (c & -> & _).
  cbn [total setConditions].
  by rewrite tallied_get_total, bool_decide_eq_true_2.
Qed.

(** ** The totals of a snapshot without a cutoff *)

Lemma tally_without_cutoff N ca items n ca' n' :
  clusterCreationTimeFilter ca = None ->
  counts N ca -> antitone ca ->
  N + Z.of_nat (length items) <= GoInt.maxInt ->
  processClusters ca items n = Ok (ca', n') ->
  forall t,
    get (total ca') t = get (total ca) t + Z.of_nat (length (ofType t items))
    /\ get (installed ca') t =
         get (installed ca) t
         + Z.of_nat (length (List.filter Installed (ofType t items))).
Proof.
  revert N ca n.
  induction items as [|cd rest IH]; intros N ca n Hnone Hc Ha HN Hrun t.
  - simpl in Hrun. unfold ret in Hrun. simplify_eq. simpl. lia.
  - rewrite processClusters_cons in Hrun.
    destruct (processCluster ca cd n) as [[ca1 n1]|msg] eqn:Hstep; [|done].
    cbn [length] in HN.
    assert (HN1 : N < GoInt.maxInt) by lia.
    assert (HN2 : N + 1 + Z.of_nat (length rest) <= GoInt.maxInt) by lia.
    destruct (processCluster_counts N _ _ _ _ _ Hc HN1 Ha Hstep) as [Hc1 Ha1].
    assert (Hnone1 : clusterCreationTimeFilter ca1 = None)
      by (by rewrite (processCluster_filter _ _ _ _ _ Hstep)).
    destruct (IH _ _ _ Hnone1 Hc1 Ha1 HN2 Hrun t) as [Ht Hi].
    rewrite Ht, Hi. clear Ht Hi IH Hrun.
    destruct (processCluster_counted_inv _ _ _ _ _ _
                (filteredOut_None _ cd n Hnone) Hstep) as (c & -> & _).
    cbn [total installed setConditions].
    rewrite tallied_get_total, tallied_get_installed.
    destruct (Hc t) as (Hi0 & Hit & HtN & _).
    rewrite !incr_no_overflow by (unfold GoInt.minInt; lia).
    unfold ofType. cbn [List.filter].
    destruct (String.eqb_spec (GetClusterDeploymentType cd) t) as [Heq|Hne].
    + rewrite bool_decide_eq_true_2 by done. cbn [List.filter].
      destruct (Installed cd); cbn [andb length]; lia.
    + rewrite bool_decide_eq_false_2 by congruence.
      rewrite andb_false_r. lia.
Qed.

(** X12. Without a cutoff, which is how [Start] builds the accumulator,
    every record is counted: after a snapshot is processed the total of a
    type is the number of records of that type, and its installed count
    the number of those that are installed. The length bound holds of
    every Go slice. *)
Theorem totals_without_cutoff buckets ca0 items n ca' n' :
  newClusterAccumulator None buckets = Some ca0 ->
  Z.of_nat (length items) <= GoInt.maxInt ->
  processClusters ca0 items n = Ok (ca', n') ->
  forall t,
    get (total ca') t = Z.of_nat (length (ofType t items))
    /\ get (installed ca') t =
         Z.of_nat (length (List.filter Installed (ofType t items))).
Proof.
  intros Hnew Hlen Hrun t.
  destruct (newClusterAccumulator_Some _ _ _ Hnew) as (_ & Hf & Ht & Hi & _).
  destruct (newClusterAccumulator_counts _ _ _ Hnew) as (Hc0 & Ha0).
  assert (Hfit : 0 + Z.of_nat (length items) <= GoInt.maxInt) by lia.
  destruct (tally_without_cutoff 0 _ _ _ _ _ Hf Hc0 Ha0 Hfit Hrun t)
    as [Ht' Hi'].
  rewrite Ht', Hi', Ht, Hi, get_empty. lia.
Qed.

(** ** Publishing, continued *)

Lemma bind_nil {A B} (f : A -> list B) (l : list A) :
  (forall x, x ∈ l -> f x = []) -> l ≫= f = [].
Proof.
  induction l as [|x l IH]; intros H; [done|].
  cbn. rewrite (H x) by (by left). simpl. apply IH.
  intros y Hy. apply H. by right.
Qed.

(** Where a gauge update of [setMetrics] comes from. *)
Lemma setMetrics_gauge ca totalG installedG uninstalledG conditionsG
    g labelValues v :
  GaugeSet g labelValues v
    ∈ setMetrics ca totalG installedG uninstalledG conditionsG <->
  (g = totalG /\ exists k, labelValues = [k] /\ total ca !! k = Some v)
  \/ (g = installedG
      /\ exists k, labelValues = [k] /\ installed ca !! k = Some v)
  \/ (g = uninstalledG
      /\ exists k b m, labelValues = [k; b]
                       /\ uninstalled ca !! b = Some m /\ m !! k = Some v)
  \/ (g = conditionsG
      /\ exists k c m, labelValues = [k; c]
                       /\ conditions ca !! c = Some m /\ m !! k = Some v).
Proof.
  unfold setMetrics. rewrite !elem_of_app, !list_elem_of_bind.
  split.
  - intros [H|[H|[H|H]]].
    + destruct H as ([k x] & He & Hin). apply elem_of_map_to_list in Hin.
      apply elem_of_cons in He as [He|He]; [|by apply list_elem_of_singleton in He].
      injection He as -> -> ->. left. eauto.
    + destruct H as ([k x] & He & Hin). apply elem_of_map_to_list in Hin.
      apply elem_of_cons in He as [He|He]; [|by apply list_elem_of_singleton in He].
      injection He as -> -> ->. right. left. eauto.
    + destruct H as ([b m] & He & Hin). apply elem_of_map_to_list in Hin.
      apply list_elem_of_bind in He as ([k x] & He & Hin').
      apply elem_of_map_to_list in Hin'.
      apply elem_of_cons in He as [He|He]; [|by apply list_elem_of_singleton in He].
      injection He as -> -> ->. right. right. left. split; [done|].
      by exists k, b, m.
    + destruct H as ([c m] & He & Hin). apply elem_of_map_to_list in Hin.
      apply list_elem_of_bind in He as ([k x] & He & Hin').
      apply elem_of_map_to_list in Hin'.
      apply elem_of_cons in He as [He|He]; [|by apply list_elem_of_singleton in He].
      injection He as -> -> ->. right. right. right. split; [done|].
      by exists k, c, m.
  - intros [(-> & k & -> & Hk)|[(-> & k & -> & Hk)
           |[(-> & k & b & m & -> & Hb & Hk)|(-> & k & c & m & -> & Hc & Hk)]]].
    + left. exists (k, v). split; [by left|by apply elem_of_map_to_list].
    + right. left. exists (k, v).
      split; [by left|by apply elem_of_map_to_list].
    + right. right. left. exists (b, m).
      split; [|by apply elem_of_map_to_list].
      apply list_elem_of_bind. exists (k, v).
      split; [by left|by apply elem_of_map_to_list].
    + right. right. right. exists (c, m).
      split; [|by apply elem_of_map_to_list].
      apply list_elem_of_bind. exists (k, v).
      split; [by left|by apply elem_of_map_to_list].
Qed.

(** X13. [setMetrics] publishes every entry of the accumulator: the
    total and the installed count of every type under the type, and every
    entry of every bucket and of every condition type under the type
    followed by the bucket string or the condition type. *)
Theorem setMetrics_publishes_every_entry ca
    totalG installedG uninstalledG conditionsG :
  (forall k v, total ca !! k = Some v ->
     GaugeSet totalG [k] v
       ∈ setMetrics ca totalG installedG uninstalledG conditionsG)
  /\ (forall k v, installed ca !! k = Some v ->
        GaugeSet installedG [k] v
          ∈ setMetrics ca totalG installedG uninstalledG conditionsG)
  /\ (forall b m k v, uninstalled ca !! b = Some m -> m !! k = Some v ->
        GaugeSet uninstalledG [k; b] v
          ∈ setMetrics ca totalG installedG uninstalledG conditionsG)
  /\ (forall c m k v, conditions ca !! c = Some m -> m !! k = Some v ->
        GaugeSet conditionsG [k; c] v
          ∈ setMetrics ca totalG installedG uninstalledG conditionsG).
Proof.
  repeat split; intros; apply setMetrics_gauge.
  - left. eauto.
  - right. left. eauto.
  - right. right. left. split; [done|]. eauto 10.
  - right. right. right. split; [done|]. eauto 10.
Qed.

(** X14. [setMetrics] publishes nothing else: every gauge update it makes
    is to one of its four gauges, carries the value of an entry of the
    map of that gauge, and is labelled with the keys of that entry. *)
Theorem setMetrics_publishes_only_entries ca
    totalG installedG uninstalledG conditionsG g labelValues v :
  GaugeSet g labelValues v
    ∈ setMetrics ca totalG installedG uninstalledG conditionsG ->
  (g = totalG /\ exists k, labelValues = [k] /\ total ca !! k = Some v)
  \/ (g = installedG
      /\ exists k, labelValues = [k] /\ installed ca !! k = Some v)
  \/ (g = uninstalledG
      /\ exists k b m, labelValues = [k; b]
                       /\ uninstalled ca !! b = Some m /\ m !! k = Some v)
  \/ (g = conditionsG
      /\ exists k c m, labelValues = [k; c]
                       /\ conditions ca !! c = Some m /\ m !! k = Some v).
Proof. apply setMetrics_gauge. Qed.

Lemma setMetrics_fresh cutoff buckets ca
    totalG installedG uninstalledG conditionsG :
  newClusterAccumulator cutoff buckets = Some ca ->
  setMetrics ca totalG installedG uninstalledG conditionsG = [].
Proof.
  intros (_ & _ & Ht & Hi & Hu & Hc)%newClusterAccumulator_Some.
  unfold setMetrics. rewrite Ht, Hi, map_to_list_empty. simpl.
  rewrite !bind_nil; [done| |].
  - intros [c m] Hin%elem_of_map_to_list.
    by rewrite (Hc _ _ Hin), map_to_list_empty.
  - intros [b m] Hin%elem_of_map_to_list.
    by rewrite (Hu _ _ Hin), map_to_list_empty.
Qed.

(** X15. A pass that finds no cluster deployment at all sets no cluster
    gauge: no type has been seen, so no series is written, not even with
    a zero. The pass goes on to the jobs as usual. *)
Theorem empty_fleet_publishes_no_cluster_gauge w ca0 n :
  clusterDeployments w = Some [] ->
  newClusterAccumulator None startBuckets = Some ca0 ->
  pass w n =
    ([Log Info "calculating metrics across all ClusterDeployments";
      Log Debug "loaded cluster deployments";
      Log Info "calculating metrics across all install jobs"]
     ++ installJobMetrics (installJobs w)
     ++ [Log Info "calculating metrics across all uninstall jobs"]
     ++ uninstallJobMetrics (uninstallJobs w)
     ++ [Log Info "metrics calculation complete"],
     Ok (tt, S (S n))).
Proof.
  intros Hitems Hnew. unfold pass, clusterMetrics.
  rewrite Hitems, Hnew. cbn [processClusters]. unfold ret.
  by rewrite (setMetrics_fresh _ _ _ _ _ _ _ Hnew).
Qed.

(** ** The calculation loop, continued *)

Lemma startBuckets_parse_built :
  (forall b, b ∈ startBuckets -> is_Some (ParseDuration b)) ->
  exists ca0, newClusterAccumulator None startBuckets = Some ca0.
Proof.
  intros Hparse.
  destruct (newClusterAccumulator None startBuckets) as [ca0|] eqn:Hnew;
    [by eauto|].
  apply newClusterAccumulator_None in Hnew as (durStr & Hin & Hp).
  destruct (Hparse _ Hin) as [d Hd]. congruence.
Qed.

(** How the cluster part of a pass hands over. *)
Lemma clusterMetrics_cases items n :
  (items = None
   /\ clusterMetrics items n
      = ([Log Error "error listing cluster deployments"], Continue n))
  \/ (exists l, items = Some l
      /\ newClusterAccumulator None startBuckets = None
      /\ clusterMetrics items n
         = ([Log Debug "loaded cluster deployments";
             Log Error "unable to calculate metrics"], Return n))
  \/ (exists l ca0 msg, items = Some l
      /\ newClusterAccumulator None startBuckets = Some ca0
      /\ processClusters ca0 l n = Panic msg
      /\ clusterMetrics items n
         = ([Log Debug "loaded cluster deployments"], Crash msg))
  \/ (exists l ca0 ca' n', items = Some l
      /\ newClusterAccumulator None startBuckets = Some ca0
      /\ processClusters ca0 l n = Ok (ca', n')
      /\ clusterMetrics items n
         = ([Log Debug "loaded cluster deployments"]
            ++ setMetrics ca'
                 metricClusterDeploymentsTotal
                 metricClusterDeploymentsInstalledTotal
                 metricClusterDeploymentsUninstalledTotal
                 metricClusterDeploymentsWithConditionTotal,
            Continue n')).
Proof.
  unfold clusterMetrics. destruct items as [l|]; [|by left].
  right. destruct (newClusterAccumulator None startBuckets) as [ca0|] eqn:Hnew.
  - right. destruct (processClusters ca0 l n) as [[ca' n']|msg] eqn:Hrun.
    + right. by exists l, ca0, ca', n'.
    + left. by exists l, ca0, msg.
  - left. by exists l.
Qed.

Lemma pass_returns w n :
  (forall items, clusterDeployments w = Some items ->
                 forallb conditionsKnown items = true) ->
  exists evs n', pass w n = (evs, Ok (tt, n')).
Proof.
  intros Hk. unfold pass.
  destruct (clusterMetrics_cases (clusterDeployments w) (S n))
    as [(_ & ->)|[(l & _ & _ & ->)|[(l & ca0 & msg & Hl & Hnew & Hrun & _)
       |(l & ca0 & ca' & n' & _ & _ & _ & ->)]]]; try by eauto.
  exfalso.
  destruct (newClusterAccumulator_Some _ _ _ Hnew) as (Hcfg & _).
  destruct (processClusters_returns _ _ _ (S n) Hcfg (Hk _ Hl))
    as (ca' & n' & Hok).
  congruence.
Qed.

(** X16. The loop does not crash as long as the true conditions of the
    cluster deployments it is given are of known types: whatever the API
    server answers otherwise (failed listings, no records, jobs of any
    kind), every pass returns and the loop runs until it is stopped. *)
Theorem loop_runs_until_stopped ticks n :
  (forall w items, w ∈ ticks -> clusterDeployments w = Some items ->
                   forallb conditionsKnown items = true) ->
  (until ticks n).2 = Stopped /\ (Start ticks n).2 = Stopped.
Proof.
  intros Hk.
  assert (Hu : forall m, (until ticks m).2 = Stopped).
  { induction ticks as [|w rest IH]; intros m; [done|]. cbn [until].
    destruct (pass_returns w m) as (evs & m' & ->).
    { intros items. apply Hk. by left. }
    specialize (IH (fun w' items Hin => Hk w' items (list_elem_of_further _ _ _ Hin)) m').
    by destruct (until rest m'). }
  split; [apply Hu|]. unfold Start. specialize (Hu n).
  by destruct (until ticks n).
Qed.

(** A pass that returns without the constructor failing ends with the
    job part. *)
Lemma pass_reaches_jobs w n evs n' :
  (forall b, b ∈ startBuckets -> is_Some (ParseDuration b)) ->
  pass w n = (evs, Ok (tt, n')) ->
  exists pre,
    evs = pre ++ installJobMetrics (installJobs w)
          ++ [Log Info "calculating metrics across all uninstall jobs"]
          ++ uninstallJobMetrics (uninstallJobs w)
          ++ [Log Info "metrics calculation complete"].
Proof.
  intros Hparse Hpass.
  destruct (startBuckets_parse_built Hparse) as [ca0 Hnew].
  unfold pass in Hpass.
  destruct (clusterMetrics_cases (clusterDeployments w) (S n))
    as [(_ & Hcm)|[(l & _ & Hnone & _)|[(l & c & msg & _ & _ & _ & Hcm)
       |(l & c & ca' & n1 & _ & _ & _ & Hcm)]]];
    [| congruence | by rewrite Hcm in Hpass |];
    rewrite Hcm in Hpass; injection Hpass as <- _.
  - by exists [Log Info "calculating metrics across all ClusterDeployments";
               Log Error "error listing cluster deployments";
               Log Info "calculating metrics across all install jobs"].
  - exists ([Log Info "calculating metrics across all ClusterDeployments";
             Log Debug "loaded cluster deployments"]
            ++ setMetrics ca'
                 metricClusterDeploymentsTotal
                 metricClusterDeploymentsInstalledTotal
                 metricClusterDeploymentsUninstalledTotal
                 metricClusterDeploymentsWithConditionTotal
            ++ [Log Info "calculating metrics across all install jobs"]).
    simpl. by rewrite <- !app_assoc.
Qed.

(** X18. When the bucket strings of [Start] parse, a pass that returns
    publishes the job totals of every job listing that succeeded, as
    [processJobs] computes them, and logs an error for every job listing
    that failed: whether the cluster deployments could be listed and
    whether the other job listing succeeded makes no difference. *)
Theorem pass_publishes_job_totals w n evs n' :
  (forall b, b ∈ startBuckets -> is_Some (ParseDuration b)) ->
  pass w n = (evs, Ok (tt, n')) ->
  (forall jobs, installJobs w = Some jobs ->
     GaugeSet metricInstallJobsRunningTotal [] (processJobs jobs).1 ∈ evs
     /\ GaugeSet metricInstallJobsFailedTotal [] (processJobs jobs).2 ∈ evs)
  /\ (forall jobs, uninstallJobs w = Some jobs ->
        GaugeSet metricUninstallJobsRunningTotal [] (processJobs jobs).1 ∈ evs
        /\ GaugeSet metricUninstallJobsFailedTotal [] (processJobs jobs).2
             ∈ evs)
  /\ (installJobs w = None ->
      Log Error "error listing install jobs" ∈ evs)
  /\ (uninstallJobs w = None ->
      Log Error "error listing uninstall jobs" ∈ evs).
Proof.
  intros Hparse Hpass.
  destruct (pass_reaches_jobs _ _ _ _ Hparse Hpass) as [pre ->].
  split; [|split; [|split]].
  - intros jobs Hj. rewrite Hj. unfold installJobMetrics.
    destruct (processJobs jobs) as [r f]. cbn [fst snd].
    split; apply elem_of_app; right; apply elem_of_app; left;
      rewrite !elem_of_cons; auto 10.
  - intros jobs Hj. rewrite Hj. unfold uninstallJobMetrics.
    destruct (processJobs jobs) as [r f]. cbn [fst snd].
    split; apply elem_of_app; right; apply elem_of_app; right;
      apply elem_of_app; right; apply elem_of_app; left;
      rewrite !elem_of_cons; auto 10.
  - intros Hj. rewrite Hj. apply elem_of_app; right; apply elem_of_app; left.
    by left.
  - intros Hj. rewrite Hj. apply elem_of_app; right; apply elem_of_app; right;
      apply elem_of_app; right; apply elem_of_app; left. by left.
Qed.

Lemma installJobMetrics_gauge jobs g labelValues v :
  GaugeSet g labelValues v ∈ installJobMetrics jobs ->
  g ∈ [metricInstallJobsRunningTotal; metricInstallJobsFailedTotal]
  /\ is_Some jobs.
Proof.
  unfold installJobMetrics. destruct jobs as [jobs|].
  - destruct (processJobs jobs) as [r f]. rewrite !elem_of_cons.
    intros [H|[H|[H|[H|H]]]]; try discriminate H.
    + injection H as -> _ _. split; [by left|by eauto].
    + injection H as -> _ _. split; [right; by left|by eauto].
    + by apply elem_of_nil in H.
  - rewrite !elem_of_cons. intros [H|H]; [discriminate H|].
    by apply elem_of_nil in H.
Qed.

Lemma uninstallJobMetrics_gauge jobs g labelValues v :
  GaugeSet g labelValues v ∈ uninstallJobMetrics jobs ->
  g ∈ [metricUninstallJobsRunningTotal; metricUninstallJobsFailedTotal]
  /\ is_Some jobs.
Proof.
  unfold uninstallJobMetrics. destruct jobs as [jobs|].
  - destruct (processJobs jobs) as [r f]. rewrite !elem_of_cons.
    intros [H|[H|[H|[H|H]]]]; try discriminate H.
    + injection H as -> _ _. split; [by left|by eauto].
    + injection H as -> _ _. split; [right; by left|by eauto].
    + by apply elem_of_nil in H.
  - rewrite !elem_of_cons. intros [H|H]; [discriminate H|].
    by apply elem_of_nil in H.
Qed.

Ltac split_events H :=
  repeat match type of H with
         | _ ∈ _ ++ _ => apply elem_of_app in H as [H|H]
         | _ ∈ _ :: _ => apply elem_of_cons in H as [H|H]
         | _ ∈ [] => by apply elem_of_nil in H
         | GaugeSet _ _ _ = Log _ _ => discriminate H
         end.

(** X19. A pass updates a gauge only from a listing that succeeded: the
    four cluster gauges only when the cluster deployments were listed,
    the two install job gauges only when the install jobs were listed,
    the two uninstall job gauges only when the uninstall jobs were
    listed. After a failed listing the gauges of that listing keep what
    an earlier pass wrote. *)
Theorem gauge_updates_need_their_listing w n g labelValues v :
  GaugeSet g labelValues v ∈ (pass w n).1 ->
  (g ∈ [metricClusterDeploymentsTotal;
        metricClusterDeploymentsInstalledTotal;
        metricClusterDeploymentsUninstalledTotal;
        metricClusterDeploymentsWithConditionTotal]
   /\ is_Some (clusterDeployments w))
  \/ (g ∈ [metricInstallJobsRunningTotal; metricInstallJobsFailedTotal]
      /\ is_Some (installJobs w))
  \/ (g ∈ [metricUninstallJobsRunningTotal; metricUninstallJobsFailedTotal]
      /\ is_Some (uninstallJobs w)).
Proof.
  unfold pass.
  destruct (clusterMetrics_cases (clusterDeployments w) (S n))
    as [(_ & ->)|[(l & _ & _ & ->)|[(l & c & msg & _ & _ & _ & ->)
       |(l & c & ca' & n1 & Hl & _ & _ & ->)]]];
    cbn [fst]; intros H; split_events H.
  all: try (apply installJobMetrics_gauge in H; by right; left).
  all: try (apply uninstallJobMetrics_gauge in H; by right; right).
  left. split; [|by rewrite Hl].
  apply setMetrics_gauge in H
    as [(-> & _)|[(-> & _)|[(-> & _)|(-> & _)]]];
    rewrite !elem_of_cons; auto 10.
Qed.

(** X20. From the listing to the gauge: when the bucket strings of
    [Start] parse and the true conditions of the records are of known
    types, a pass publishes for the type of every record listed the
    number of records of that type as its total and the number of those
    that are installed as its installed count. *)
Theorem pass_publishes_type_totals w items cd n :
  clusterDeployments w = Some items ->
  (forall b, b ∈ startBuckets -> is_Some (ParseDuration b)) ->
  forallb conditionsKnown items = true ->
  Z.of_nat (length items) <= GoInt.maxInt ->
  cd ∈ items ->
  GaugeSet metricClusterDeploymentsTotal [GetClusterDeploymentType cd]
    (Z.of_nat (length (ofType (GetClusterDeploymentType cd) items)))
    ∈ (pass w n).1
  /\ GaugeSet metricClusterDeploymentsInstalledTotal
       [GetClusterDeploymentType cd]
       (Z.of_nat (length (List.filter Installed
                            (ofType (GetClusterDeploymentType cd) items))))
       ∈ (pass w n).1.
Proof.
  intros Hitems Hparse Hk Hlen Hin.
  destruct (startBuckets_parse_built Hparse) as [ca0 Hnew].
  destruct (newClusterAccumulator_Some _ _ _ Hnew) as (Hcfg & Hf & Ht & Hi & _).
  destruct (newClusterAccumulator_counts _ _ _ Hnew) as (Hc0 & Ha0).
  destruct (processClusters_returns _ _ _ (S n) Hcfg Hk) as (ca' & n' & Hrun).
  assert (Hfit : 0 + Z.of_nat (length items) <= GoInt.maxInt) by lia.
  destruct (tally_without_cutoff 0 _ _ _ _ _ Hf Hc0 Ha0 Hfit Hrun
              (GetClusterDeploymentType cd)) as [Htot Hinst].
  rewrite Ht, get_empty in Htot. rewrite Hi, get_empty in Hinst.
  assert (Hs : seeded (GetClusterDeploymentType cd) ca').
  { apply list_elem_of_split in Hin as (pre & post & ->).
    destruct (processClusters_split _ _ _ _ _ _ _ Hrun)
      as (ca1 & n1 & ca2 & n2 & Hpre & Hstep & Hpost).
    assert (Hnone : clusterCreationTimeFilter ca1 = None)
      by (by rewrite (processClusters_filter _ _ _ _ _ Hpre)).
    eapply processClusters_keeps_seeded; [|exact Hpost].
    eapply processCluster_seeds; [|exact Hstep].
    by apply filteredOut_None. }
  destruct Hs as ([vt Hvt] & [vi Hvi] & _).
  unfold get in Htot, Hinst. rewrite Hvt in Htot. rewrite Hvi in Hinst.
  simpl in Htot, Hinst.
  unfold pass, clusterMetrics. rewrite Hitems, Hnew, Hrun. cbn [fst].
  split.
  - apply elem_of_app; right. apply elem_of_app; left.
    apply elem_of_app; right. apply setMetrics_gauge. left.
    split; [done|]. eexists. split; [done|]. rewrite Hvt. f_equal. lia.
  - apply elem_of_app; right. apply elem_of_app; left.
    apply elem_of_app; right. apply setMetrics_gauge. right. left.
    split; [done|]. eexists. split; [done|]. rewrite Hvi. f_equal. lia.
Qed.

(** ** When [processCluster] panics *)

Lemma conditionsKnown_false cd :
  conditionsKnown cd = false ->
  exists cond, cond ∈ Conditions cd
               /\ cond_Status cond = ConditionTrue
               /\ cond_Type cond ∉ AllClusterDeploymentConditions.
Proof.
  unfold conditionsKnown.
  induction (Conditions cd) as [|cond rest IH]; [done|].
  cbn [forallb]. intros [H|H]%andb_false_iff.
  - exists cond. split; [by left|]. unfold conditionKnown in H.
    apply orb_false_iff in H as [Hs Ht].
    apply negb_false_iff in Hs. apply String.eqb_eq in Hs.
    by apply bool_decide_eq_false in Ht.
  - destruct (IH H) as (c & Hin & Hc). exists c. split; [by right|done].
Qed.

(** X21. On an accumulator the constructor built, [processCluster] panics
    on a record exactly when the record passes the filter and has a true
    condition whose type is not among the known ones, and then with the
    write to a nil map. A record that is filtered out never panics,
    whatever its conditions. *)
Theorem processCluster_panics_iff buckets ca cd n :
  configured buckets ca ->
  ((exists msg, processCluster ca cd n = Panic msg) <->
   (exists n1, filteredOut ca cd n = Ok (false, n1))
   /\ conditionsKnown cd = false)
  /\ (forall msg, processCluster ca cd n = Panic msg -> msg = nilMapWrite).
Proof.
  intros Hcfg.
  assert (Hpanic : forall n1, filteredOut ca cd n = Ok (false, n1) ->
                     conditionsKnown cd = false ->
                     processCluster ca cd n = Panic nilMapWrite).
  { intros n1 Hf (cond & Hin & Hs & Hunk)%conditionsKnown_false.
    rewrite (processCluster_count _ _ _ _ Hf), countCluster_eq.
    rewrite (processConditions_panics _ _ _ cond); [done..|].
    rewrite lookup_fmap.
    destruct (conditions ca !! cond_Type cond) eqn:E; [|done].
    exfalso. apply Hunk, (cfg_conditions _ _ Hcfg). by rewrite E. }
  assert (Hcases : forall msg, processCluster ca cd n = Panic msg ->
                     (exists n1, filteredOut ca cd n = Ok (false, n1))
                     /\ conditionsKnown cd = false).
  { intros msg Hrun.
    destruct (filteredOut_returns ca cd n) as ([|] & n1 & Hf).
    - rewrite (processCluster_skip _ _ _ _ Hf) in Hrun. done.
    - split; [by eauto|].
      destruct (conditionsKnown cd) eqn:Hk; [|done].
      destruct (processCluster_counted _ _ _ _ _ Hcfg Hk Hf) as (c & _ & Hok).
      congruence. }
  split; [split|].
  - intros [msg Hrun]. by eapply Hcases.
  - intros [[n1 Hf] Hk]. exists nilMapWrite. by eapply Hpanic.
  - intros msg Hrun. destruct (Hcases _ Hrun) as [[n1 Hf] Hk].
    rewrite (Hpanic _ Hf Hk) in Hrun. congruence.
Qed.

(** ** One value for a series *)

(** X22. With distinct gauges for the total and the installed count, and
    for the buckets and the conditions, [setMetrics] gives no series two
    values: two updates of one gauge under the same label values carry
    the same value. *)
Theorem setMetrics_one_value_per_series ca
    totalG installedG uninstalledG conditionsG g labelValues v v' :
  totalG <> installedG ->
  uninstalledG <> conditionsG ->
  GaugeSet g labelValues v
    ∈ setMetrics ca totalG installedG uninstalledG conditionsG ->
  GaugeSet g labelValues v'
    ∈ setMetrics ca totalG installedG uninstalledG conditionsG ->
  v = v'.
Proof.
  intros Hti Huc H H'.
  apply setMetrics_gauge in H
    as [(Hg & k & Hl & Hv)|[(Hg & k & Hl & Hv)
       |[(Hg & k & b & m & Hl & Hb & Hv)|(Hg & k & b & m & Hl & Hb & Hv)]]];
  apply setMetrics_gauge in H'
    as [(Hg' & k' & Hl' & Hv')|[(Hg' & k' & Hl' & Hv')
       |[(Hg' & k' & b' & m' & Hl' & Hb' & Hv')
        |(Hg' & k' & b' & m' & Hl' & Hb' & Hv')]]];
  subst; try congruence; simplify_eq; congruence.
Qed.

End Metrics.

(** * The calculator at concrete parameters *)

Import Sample.

(** The calculator at the parameters of [Sample]. *)
Abbreviation processCluster' :=
  (processCluster ParseDuration DefaultClusterType HiveClusterTypeLabel clock).
Abbreviation processClusters' :=
  (processClusters ParseDuration DefaultClusterType HiveClusterTypeLabel
     clock).
Abbreviation type' :=
  (GetClusterDeploymentType DefaultClusterType HiveClusterTypeLabel).

Lemma fresh_built :
  newClusterAccumulator ParseDuration AllClusterDeploymentConditions
    None startBuckets = Some fresh.
Proof. vm_compute. reflexivity. Qed.

Lemma freshCutoff_built :
  newClusterAccumulator ParseDuration AllClusterDeploymentConditions
    (Some Hour) startBuckets = Some freshCutoff.
Proof. vm_compute. reflexivity. Qed.

Lemma fresh_configured :
  configured ParseDuration AllClusterDeploymentConditions startBuckets fresh.
Proof. exact (proj1 (newClusterAccumulator_Some _ _ _ _ _ fresh_built)). Qed.

Ltac in_list := apply (bool_decide_unpack _); vm_compute; exact I.
Ltac not_in_list :=
  apply (proj1 (bool_decide_eq_false _)); vm_compute; reflexivity.

(** C1 at a concrete record: [processCluster] panics on [hibernating],
    and so the first pass that sees it ends the loop: the second pass
    never runs. *)
Lemma unknown_condition_panics_witness :
  processCluster' fresh hibernating 0%nat = Panic nilMapWrite
  /\ Start ParseDuration AllClusterDeploymentConditions DefaultClusterType
       HiveClusterTypeLabel clock
       [ {| clusterDeployments := Some [hibernating];
            installJobs := Some []; uninstallJobs := Some [] |};
         {| clusterDeployments := Some [];
            installJobs := Some []; uninstallJobs := Some [] |} ] 0%nat
     = ([Log Info "started metrics calculator goroutine";
         Log Info "calculating metrics across all ClusterDeployments";
         Log Debug "loaded cluster deployments"],
        Crashed nilMapWrite).
Proof.
  split.
  - apply (unknown_condition_panics ParseDuration
             AllClusterDeploymentConditions DefaultClusterType
             HiveClusterTypeLabel clock startBuckets fresh hibernating
             0%nat 0%nat
             {| cond_Type := "Hibernating"; cond_Status := ConditionTrue |}).
    + exact fresh_configured.
    + reflexivity.
    + apply elem_of_cons. by left.
    + reflexivity.
    + not_in_list.
  - vm_compute. reflexivity.
Defined.

(** C6 at a concrete record: created two hours ago, under a cutoff of
    one hour. *)
Lemma cutoff_skips_record_witness :
  processCluster' freshCutoff (cluster (labelled "prod") 2 false []) 0%nat
  = Ok (freshCutoff, 1%nat).
Proof.
  apply (cutoff_skips_record ParseDuration DefaultClusterType
           HiveClusterTypeLabel clock freshCutoff
           (cluster (labelled "prod") 2 false []) 0%nat Hour).
  - reflexivity.
  - vm_compute. reflexivity.
Defined.

(** C5, as amended, at a concrete record: a record without labels
    against the same record labelled with the default type. *)
Lemma absent_type_label_is_default_witness :
  type' (cluster None 5 true []) = DefaultClusterType
  /\ processCluster' fresh (cluster None 5 true []) 0%nat
     = processCluster' fresh
         (withLabels (cluster None 5 true []) (labelled DefaultClusterType))
         0%nat.
Proof.
  apply (absent_type_label_is_default ParseDuration DefaultClusterType
           HiveClusterTypeLabel clock fresh (cluster None 5 true [])
           {[ HiveClusterTypeLabel := DefaultClusterType ]} 0%nat).
  - exact I.
  - vm_compute. reflexivity.
Defined.

(** C5, a record against the claim: the type label is present and empty.
    Its type is the empty string, not the default type, and it is counted
    under the empty string. *)
Lemma empty_type_label_is_not_default :
  type' (cluster (labelled "") 5 true []) = ""
  /\ String.eqb "" DefaultClusterType = false
  /\ match processCluster' fresh (cluster (labelled "") 5 true []) 0%nat with
     | Ok (ca', _) => map_to_list (total ca')
     | Panic _ => []
     end = [("", 1)]
  /\ match processCluster' fresh
             (cluster (labelled DefaultClusterType) 5 true []) 0%nat with
     | Ok (ca', _) => map_to_list (total ca')
     | Panic _ => []
     end = [("unspecified", 1)].
Proof. vm_compute. repeat split. Qed.

Lemma fresh_bucket b : b ∈ startBuckets -> uninstalled fresh !! b = Some ∅.
Proof.
  intros Hb. unfold startBuckets in Hb.
  repeat (apply elem_of_cons in Hb as [->|Hb]; [vm_compute; reflexivity|]).
  by apply elem_of_nil in Hb.
Qed.

(** C2 at a concrete record: [tenHours] is counted in the bucket of 8
    hours and not in the bucket of 24 hours. *)
Lemma uninstalled_counted_above_threshold_witness :
  exists ca' m8 m24,
    processCluster' fresh tenHours 0%nat = Ok (ca', 1%nat)
    /\ uninstalled ca' !! "8h" = Some m8
    /\ uninstalled ca' !! "24h" = Some m24
    /\ get m8 "prod" = 1
    /\ get m24 "prod" = 0.
Proof.
  destruct (uninstalled_counted_above_threshold ParseDuration
              AllClusterDeploymentConditions DefaultClusterType
              HiveClusterTypeLabel clock startBuckets fresh tenHours
              0%nat 0%nat)
    as (Hex & Hall).
  - exact fresh_configured.
  - reflexivity.
  - reflexivity.
  - destruct (Hex eq_refl) as (ca' & Hrun).
    pose proof (Hall _ _ Hrun) as Hb.
    destruct (Hb "8h" (8 * Hour)) as (m & m8 & Hm & Hm8 & Hlt & _ & _);
      [in_list|vm_compute; reflexivity|].
    destruct (Hb "24h" (24 * Hour)) as (k & m24 & Hk & Hm24 & _ & Hge & _);
      [in_list|vm_compute; reflexivity|].
    exists ca', m8, m24. split; [exact Hrun|].
    split; [exact Hm8|]. split; [exact Hm24|].
    rewrite fresh_bucket in Hm by in_list.
    rewrite fresh_bucket in Hk by in_list.
    injection Hm as <-. injection Hk as <-. split.
    + assert (H8 : 8 * Hour < age clock 0%nat tenHours)
        by (vm_compute; reflexivity).
      exact (Hlt H8).
    + assert (H24 : age clock 0%nat tenHours <= 24 * Hour)
        by (vm_compute; discriminate).
      exact (Hge H24).
Defined.

(** C8 at a concrete record: [unreachable] is installed, its installed
    counter becomes 1 and its counter in the bucket of zero hours stays
    0. *)
Lemma installed_and_buckets_exclusive_witness :
  exists ca' n' m0,
    processCluster' fresh unreachable 0%nat = Ok (ca', n')
    /\ get (installed ca') "unspecified" = 1
    /\ uninstalled ca' !! "0h" = Some m0
    /\ get m0 "unspecified" = 0.
Proof.
  destruct (installed_and_buckets_exclusive ParseDuration
              AllClusterDeploymentConditions DefaultClusterType
              HiveClusterTypeLabel clock startBuckets fresh unreachable
              0%nat)
    as (Hex & Hall).
  - exact fresh_configured.
  - destruct (Hex eq_refl) as (ca' & n' & Hrun).
    destruct (Hall _ _ Hrun) as (Hinst & _).
    destruct (Hinst eq_refl) as [Hb Hi].
    destruct (Hb "0h" ∅ "unspecified") as (m0 & Hm0 & Hg);
      [apply fresh_bucket; in_list|].
    exists ca', n', m0. split; [exact Hrun|]. split.
    + exact (Hi 0%nat eq_refl).
    + split; [exact Hm0|]. rewrite Hg. reflexivity.
Defined.

(** C3 at a snapshot of two types: [prod] has an entry in the installed
    map, which is zero as no record of that type is installed, and the
    default type has an entry in the bucket of 72 hours and [prod] under
    a known condition that no record has. *)
Lemma counted_types_seeded_everywhere_witness :
  exists ca' n',
    processClusters' fresh [tenHours; unreachable] 0%nat = Ok (ca', n')
    /\ is_Some (installed ca' !! "prod")
    /\ (exists m, uninstalled ca' !! "72h" = Some m
                  /\ is_Some (m !! "unspecified"))
    /\ (exists m, conditions ca' !! "IngressCertificateNotFound" = Some m
                  /\ is_Some (m !! "prod"))
    /\ installed ca' !! "prod" = Some 0.
Proof.
  destruct (counted_types_seeded_everywhere ParseDuration
              AllClusterDeploymentConditions DefaultClusterType
              HiveClusterTypeLabel clock None startBuckets fresh
              [tenHours; unreachable] 0%nat)
    as (Hex & Hall).
  - exact fresh_built.
  - destruct (Hex eq_refl) as (ca' & n' & Hrun).
    pose proof (Hall _ _ Hrun) as Hseed. clear Hex Hall.
    assert (H1 : countedIn ParseDuration DefaultClusterType
                   HiveClusterTypeLabel clock fresh
                   [tenHours; unreachable] 0%nat tenHours 0%nat).
    { exists [], [unreachable], fresh, 0%nat. repeat split. }
    assert (H2 : countedIn ParseDuration DefaultClusterType
                   HiveClusterTypeLabel clock fresh
                   [tenHours; unreachable] 0%nat unreachable 1%nat).
    { exists [tenHours], [],
        (setConditions (tallied ParseDuration DefaultClusterType
                          HiveClusterTypeLabel fresh tenHours
                          (age clock 0%nat tenHours))
                       (seed "prod" <$> conditions fresh)), 1%nat.
      repeat split. }
    destruct (Hseed tenHours 0%nat H1) as ((_ & Hi & _ & Hc) & Hzero & _).
    destruct (Hseed unreachable 1%nat H2) as ((_ & _ & Hu & _) & _).
    exists ca', n'. split; [exact Hrun|].
    split; [exact Hi|]. split; [apply Hu; in_list|].
    split; [apply Hc; in_list|].
    apply Hzero.
    intros cd' n2' (pre & post & ca1 & n1 & Heq & _ & _) Htype.
    destruct pre as [|x [|y pre]]; simpl in Heq.
    + injection Heq as <- _. reflexivity.
    + injection Heq as _ <- _. vm_compute in Htype. discriminate Htype.
    + injection Heq as _ _ Heq. destruct pre; discriminate Heq.
Defined.

(** C9 at the same snapshot: the counts of both types are consistent. *)
Lemma installed_and_buckets_within_total_witness :
  exists ca' n',
    processClusters' fresh [tenHours; unreachable] 0%nat = Ok (ca', n')
    /\ (forall t, get (installed ca') t <= get (total ca') t)
    /\ (exists m, uninstalled ca' !! "8h" = Some m
          /\ forall t, get m t <= get (total ca') t - get (installed ca') t).
Proof.
  destruct (installed_and_buckets_within_total ParseDuration
              AllClusterDeploymentConditions DefaultClusterType
              HiveClusterTypeLabel clock None startBuckets fresh
              [tenHours; unreachable] 0%nat)
    as (Hex & Hall).
  - exact fresh_built.
  - vm_compute. discriminate.
  - destruct (Hex eq_refl) as (ca' & n' & Hrun).
    destruct (Hall _ _ Hrun) as (Hi & Hu & _).
    exists ca', n'. split; [exact Hrun|]. split; [exact Hi|].
    apply Hu. in_list.
Defined.

(** C10 at the same snapshot: the bucket of 8 hours holds at most what
    the bucket of one hour holds. *)
Lemma bucket_counts_antitone_witness :
  exists ca' n' m1 m8,
    processClusters' fresh [tenHours; unreachable] 0%nat = Ok (ca', n')
    /\ uninstalled ca' !! "1h" = Some m1
    /\ uninstalled ca' !! "8h" = Some m8
    /\ forall t, get m8 t <= get m1 t.
Proof.
  destruct (bucket_counts_antitone ParseDuration
              AllClusterDeploymentConditions DefaultClusterType
              HiveClusterTypeLabel clock None startBuckets fresh
              [tenHours; unreachable] 0%nat)
    as (Hex & Hall).
  - exact fresh_built.
  - vm_compute. discriminate.
  - destruct (Hex eq_refl) as (ca' & n' & Hrun).
    pose proof (Hall _ _ Hrun) as Hanti.
    destruct (Hanti "1h" "8h" Hour (8 * Hour))
      as (m1 & m8 & Hm1 & Hm8 & Hle);
      [in_list|in_list|vm_compute; reflexivity..|vm_compute; discriminate|].
    by exists ca', n', m1, m8.
Defined.

(** * Further properties at concrete parameters *)

Lemma freshCutoff_configured :
  configured ParseDuration AllClusterDeploymentConditions startBuckets
    freshCutoff.
Proof.
  exact (proj1 (newClusterAccumulator_Some _ _ _ _ _ freshCutoff_built)).
Qed.

Lemma startBuckets_parse b :
  b ∈ startBuckets -> is_Some (ParseDuration b).
Proof. apply (cfg_parse _ _ _ _ fresh_configured). Qed.

Ltac event_in_list :=
  vm_compute;
  repeat (apply elem_of_cons; first [left; reflexivity | right]).

(** X1 at four jobs. *)
Lemma processJobs_partitions_incomplete_witness :
  0 <= (processJobs [ {| CompletionTime := None; Failed := 0 |};
                      {| CompletionTime := None; Failed := 3 |};
                      {| CompletionTime := Some 17; Failed := 2 |};
                      {| CompletionTime := None; Failed := 0 |} ]).1
  /\ 0 <= (processJobs [ {| CompletionTime := None; Failed := 0 |};
                         {| CompletionTime := None; Failed := 3 |};
                         {| CompletionTime := Some 17; Failed := 2 |};
                         {| CompletionTime := None; Failed := 0 |} ]).2
  /\ (processJobs [ {| CompletionTime := None; Failed := 0 |};
                    {| CompletionTime := None; Failed := 3 |};
                    {| CompletionTime := Some 17; Failed := 2 |};
                    {| CompletionTime := None; Failed := 0 |} ]).1
     + (processJobs [ {| CompletionTime := None; Failed := 0 |};
                      {| CompletionTime := None; Failed := 3 |};
                      {| CompletionTime := Some 17; Failed := 2 |};
                      {| CompletionTime := None; Failed := 0 |} ]).2
     = 3.
Proof.
  apply (processJobs_partitions_incomplete
           [ {| CompletionTime := None; Failed := 0 |};
             {| CompletionTime := None; Failed := 3 |};
             {| CompletionTime := Some 17; Failed := 2 |};
             {| CompletionTime := None; Failed := 0 |} ]).
  vm_compute. discriminate.
Defined.

(** X2 at two lists of two jobs. *)
Lemma processJobs_app_witness :
  processJobs ([ {| CompletionTime := None; Failed := 0 |};
                 {| CompletionTime := None; Failed := 3 |} ]
               ++ [ {| CompletionTime := Some 17; Failed := 2 |};
                    {| CompletionTime := None; Failed := 0 |} ])
  = (1 + 1, 1 + 0).
Proof.
  apply (processJobs_app
           [ {| CompletionTime := None; Failed := 0 |};
             {| CompletionTime := None; Failed := 3 |} ]
           [ {| CompletionTime := Some 17; Failed := 2 |};
             {| CompletionTime := None; Failed := 0 |} ]).
  vm_compute. discriminate.
Defined.

(** X3 at two jobs, listed in the two orders. *)
Lemma processJobs_Permutation_witness :
  processJobs [ {| CompletionTime := None; Failed := 0 |};
                {| CompletionTime := None; Failed := 3 |} ]
  = processJobs [ {| CompletionTime := None; Failed := 3 |};
                  {| CompletionTime := None; Failed := 0 |} ].
Proof.
  apply processJobs_Permutation.
  - apply perm_swap.
  - vm_compute. discriminate.
Defined.

(** X5 at the accumulator of [Start]. *)
Lemma constructed_accumulator_is_empty_witness :
  clusterCreationTimeFilter fresh = None
  /\ total fresh = ∅
  /\ installed fresh = ∅
  /\ (forall b, uninstalled fresh !! b =
                  if decide (b ∈ startBuckets) then Some ∅ else None)
  /\ (forall c, conditions fresh !! c =
                  if decide (c ∈ AllClusterDeploymentConditions)
                  then Some ∅ else None).
Proof.
  exact (constructed_accumulator_is_empty ParseDuration
           AllClusterDeploymentConditions None startBuckets fresh
           fresh_built).
Defined.

(** X6 at the buckets of [Start] given backwards, one of them twice. *)
Lemma constructed_accumulator_by_bucket_set_witness :
  newClusterAccumulator ParseDuration AllClusterDeploymentConditions None
    ["72h"; "24h"; "8h"; "2h"; "1h"; "0h"; "8h"]
  = Some fresh.
Proof.
  apply (constructed_accumulator_by_bucket_set ParseDuration
           AllClusterDeploymentConditions None startBuckets).
  - intros b. unfold startBuckets. rewrite !elem_of_cons. tauto.
  - exact fresh_built.
Defined.

(** X9 at [flapping]: its condition that is true twice is counted
    twice. *)
Lemma true_conditions_counted_witness :
  exists ca' n' m,
    processCluster' fresh flapping 0%nat = Ok (ca', n')
    /\ conditions ca' !! "Unreachable" = Some m
    /\ get m "unspecified" = 2.
Proof.
  destruct (processCluster_returns ParseDuration
              AllClusterDeploymentConditions DefaultClusterType
              HiveClusterTypeLabel clock startBuckets fresh flapping 0%nat
              fresh_configured eq_refl)
    as (ca' & n' & Hrun).
  destruct (true_conditions_counted ParseDuration DefaultClusterType
              HiveClusterTypeLabel clock fresh flapping 0%nat 0%nat ca' n'
              eq_refl Hrun "Unreachable" ∅)
    as (m & Hm & Hget & _).
  - vm_compute. reflexivity.
  - exists ca', n', m. split; [exact Hrun|]. split; [exact Hm|].
    exact Hget.
Defined.

(** X10 at a snapshot of two records. *)
Lemma processing_keeps_configuration_witness :
  exists ca' n',
    processClusters' fresh [tenHours; unreachable] 0%nat = Ok (ca', n')
    /\ clusterCreationTimeFilter ca' = None
    /\ (forall b, is_Some (uninstalled ca' !! b)
                  <-> is_Some (uninstalled fresh !! b))
    /\ (forall c, is_Some (conditions ca' !! c)
                  <-> is_Some (conditions fresh !! c)).
Proof.
  destruct (processClusters_returns ParseDuration
              AllClusterDeploymentConditions DefaultClusterType
              HiveClusterTypeLabel clock startBuckets fresh
              [tenHours; unreachable] 0%nat fresh_configured eq_refl)
    as (ca' & n' & Hrun).
  exists ca', n'. split; [exact Hrun|].
  exact (processing_keeps_configuration ParseDuration DefaultClusterType
           HiveClusterTypeLabel clock fresh [tenHours; unreachable] 0%nat
           ca' n' Hrun).
Defined.

(** X11 at a record whose age is the cutoff of one hour. *)
Lemma within_cutoff_is_counted_witness :
  exists ca' n',
    processCluster' freshCutoff (cluster (labelled "prod") 1 false []) 0%nat
    = Ok (ca', n')
    /\ get (total ca') "prod" = 1.
Proof.
  destruct (within_cutoff_is_counted ParseDuration
              AllClusterDeploymentConditions DefaultClusterType
              HiveClusterTypeLabel clock startBuckets freshCutoff
              (cluster (labelled "prod") 1 false []) 0%nat Hour)
    as (Hex & Hall).
  - exact freshCutoff_configured.
  - reflexivity.
  - vm_compute. discriminate.
  - destruct (Hex eq_refl) as (ca' & n' & Hrun).
    destruct (Hall _ _ Hrun) as (Htotal & _).
    exists ca', n'. split; [exact Hrun|]. exact Htotal.
Defined.

(** X12 at a snapshot of three records, two of the default type and
    installed. *)
Lemma totals_without_cutoff_witness :
  exists ca' n',
    processClusters' fresh [tenHours; unreachable; unreachable] 0%nat
    = Ok (ca', n')
    /\ get (total ca') "unspecified" = 2
    /\ get (installed ca') "unspecified" = 2
    /\ get (installed ca') "prod" = 0.
Proof.
  destruct (processClusters_returns ParseDuration
              AllClusterDeploymentConditions DefaultClusterType
              HiveClusterTypeLabel clock startBuckets fresh
              [tenHours; unreachable; unreachable] 0%nat
              fresh_configured eq_refl)
    as (ca' & n' & Hrun).
  assert (Hlen : Z.of_nat (length [tenHours; unreachable; unreachable])
                 <= GoInt.maxInt) by (vm_compute; discriminate).
  pose proof (totals_without_cutoff ParseDuration
                AllClusterDeploymentConditions DefaultClusterType
                HiveClusterTypeLabel clock startBuckets fresh
                [tenHours; unreachable; unreachable] 0%nat ca' n'
                fresh_built Hlen Hrun) as Hall.
  exists ca', n'. split; [exact Hrun|].
  destruct (Hall "unspecified") as [Ht Hi].
  destruct (Hall "prod") as [_ Hip].
  split; [exact Ht|]. split; [exact Hi|exact Hip].
Defined.

(** X14 at [tallyOne]: the update of the bucket gauge comes from the
    entry of the bucket. *)
Lemma setMetrics_publishes_only_entries_witness :
  (metricClusterDeploymentsUninstalledTotal = metricClusterDeploymentsTotal
   /\ exists k, ["prod"; "0h"] = [k] /\ total tallyOne !! k = Some 2)
  \/ (metricClusterDeploymentsUninstalledTotal
      = metricClusterDeploymentsInstalledTotal
      /\ exists k, ["prod"; "0h"] = [k] /\ installed tallyOne !! k = Some 2)
  \/ (metricClusterDeploymentsUninstalledTotal
      = metricClusterDeploymentsUninstalledTotal
      /\ exists k b m, ["prod"; "0h"] = [k; b]
           /\ uninstalled tallyOne !! b = Some m /\ m !! k = Some 2)
  \/ (metricClusterDeploymentsUninstalledTotal
      = metricClusterDeploymentsWithConditionTotal
      /\ exists k c m, ["prod"; "0h"] = [k; c]
           /\ conditions tallyOne !! c = Some m /\ m !! k = Some 2).
Proof.
  apply (setMetrics_publishes_only_entries tallyOne
           metricClusterDeploymentsTotal
           metricClusterDeploymentsInstalledTotal
           metricClusterDeploymentsUninstalledTotal
           metricClusterDeploymentsWithConditionTotal
           metricClusterDeploymentsUninstalledTotal ["prod"; "0h"] 2).
  event_in_list.
Defined.

(** X15 at a pass that lists no cluster deployment and no job. *)
Lemma empty_fleet_publishes_no_cluster_gauge_witness :
  pass ParseDuration AllClusterDeploymentConditions DefaultClusterType
    HiveClusterTypeLabel clock
    {| clusterDeployments := Some []; installJobs := Some [];
       uninstallJobs := Some [] |} 0%nat
  = ([Log Info "calculating metrics across all ClusterDeployments";
      Log Debug "loaded cluster deployments";
      Log Info "calculating metrics across all install jobs";
      Log Debug "calculating running install jobs metric";
      Log Debug "calculated failed install jobs metric";
      GaugeSet metricInstallJobsRunningTotal [] 0;
      GaugeSet metricInstallJobsFailedTotal [] 0;
      Log Info "calculating metrics across all uninstall jobs";
      Log Debug "calculated running uninstall jobs metric";
      Log Debug "calculated failed uninstall jobs metric";
      GaugeSet metricUninstallJobsRunningTotal [] 0;
      GaugeSet metricUninstallJobsFailedTotal [] 0;
      Log Info "metrics calculation complete"],
     Ok (tt, 2%nat)).
Proof.
  exact (empty_fleet_publishes_no_cluster_gauge ParseDuration
           AllClusterDeploymentConditions DefaultClusterType
           HiveClusterTypeLabel clock
           {| clusterDeployments := Some []; installJobs := Some [];
              uninstallJobs := Some [] |} fresh 0%nat eq_refl fresh_built).
Defined.

(** X16 at two passes, the second of which can list nothing. *)
Lemma loop_runs_until_stopped_witness :
  (until ParseDuration AllClusterDeploymentConditions DefaultClusterType
     HiveClusterTypeLabel clock [threeClusters; nothingListed] 0%nat).2
  = Stopped
  /\ (Start ParseDuration AllClusterDeploymentConditions DefaultClusterType
        HiveClusterTypeLabel clock [threeClusters; nothingListed] 0%nat).2
     = Stopped.
Proof.
  apply (loop_runs_until_stopped ParseDuration
           AllClusterDeploymentConditions DefaultClusterType
           HiveClusterTypeLabel clock [threeClusters; nothingListed] 0%nat).
  intros w items Hin Hitems.
  apply elem_of_cons in Hin as [->|Hin].
  - injection Hitems as <-. reflexivity.
  - apply list_elem_of_singleton in Hin as ->. discriminate Hitems.
Defined.

(** X18 at [jobsOnly]: one install job is running and one has failed;
    the failed listing of the uninstall jobs is logged. *)
Lemma pass_publishes_job_totals_witness :
  GaugeSet metricInstallJobsRunningTotal [] 1
    ∈ (pass ParseDuration AllClusterDeploymentConditions DefaultClusterType
         HiveClusterTypeLabel clock jobsOnly 0%nat).1
  /\ GaugeSet metricInstallJobsFailedTotal [] 1
       ∈ (pass ParseDuration AllClusterDeploymentConditions
            DefaultClusterType HiveClusterTypeLabel clock jobsOnly 0%nat).1
  /\ Log Error "error listing uninstall jobs"
       ∈ (pass ParseDuration AllClusterDeploymentConditions
            DefaultClusterType HiveClusterTypeLabel clock jobsOnly 0%nat).1.
Proof.
  destruct (pass_publishes_job_totals ParseDuration
              AllClusterDeploymentConditions DefaultClusterType
              HiveClusterTypeLabel clock jobsOnly 0%nat
              (pass ParseDuration AllClusterDeploymentConditions
                 DefaultClusterType HiveClusterTypeLabel clock jobsOnly
                 0%nat).1
              2%nat startBuckets_parse)
    as (Hinstall & _ & _ & Huninstall).
  - vm_compute. reflexivity.
  - destruct (Hinstall _ eq_refl) as [Hr Hf].
    split; [exact Hr|]. split; [exact Hf|]. exact (Huninstall eq_refl).
Defined.

(** X19 at [jobsOnly]: the update of the install job gauge is there
    because the install jobs were listed. *)
Lemma gauge_updates_need_their_listing_witness :
  (metricInstallJobsRunningTotal
     ∈ [metricClusterDeploymentsTotal;
        metricClusterDeploymentsInstalledTotal;
        metricClusterDeploymentsUninstalledTotal;
        metricClusterDeploymentsWithConditionTotal]
   /\ is_Some (clusterDeployments jobsOnly))
  \/ (metricInstallJobsRunningTotal
        ∈ [metricInstallJobsRunningTotal; metricInstallJobsFailedTotal]
      /\ is_Some (installJobs jobsOnly))
  \/ (metricInstallJobsRunningTotal
        ∈ [metricUninstallJobsRunningTotal; metricUninstallJobsFailedTotal]
      /\ is_Some (uninstallJobs jobsOnly)).
Proof.
  apply (gauge_updates_need_their_listing ParseDuration
           AllClusterDeploymentConditions DefaultClusterType
           HiveClusterTypeLabel clock jobsOnly 0%nat
           metricInstallJobsRunningTotal [] 1).
  event_in_list.
Defined.

(** X20 at [threeClusters]: two records of the default type, both
    installed. *)
Lemma pass_publishes_type_totals_witness :
  GaugeSet metricClusterDeploymentsTotal ["unspecified"] 2
    ∈ (pass ParseDuration AllClusterDeploymentConditions DefaultClusterType
         HiveClusterTypeLabel clock threeClusters 0%nat).1
  /\ GaugeSet metricClusterDeploymentsInstalledTotal ["unspecified"] 2
       ∈ (pass ParseDuration AllClusterDeploymentConditions
            DefaultClusterType HiveClusterTypeLabel clock threeClusters
            0%nat).1.
Proof.
  apply (pass_publishes_type_totals ParseDuration
           AllClusterDeploymentConditions DefaultClusterType
           HiveClusterTypeLabel clock threeClusters
           [tenHours; unreachable; unreachable] unreachable 0%nat).
  - reflexivity.
  - exact startBuckets_parse.
  - reflexivity.
  - vm_compute. discriminate.
  - apply elem_of_cons. right. apply elem_of_cons. by left.
Defined.

(** X21 at [hibernating], which passes the filter and has a true
    condition of an unknown type. *)
Lemma processCluster_panics_iff_witness :
  exists msg, processCluster' fresh hibernating 0%nat = Panic msg.
Proof.
  destruct (processCluster_panics_iff ParseDuration
              AllClusterDeploymentConditions DefaultClusterType
              HiveClusterTypeLabel clock startBuckets fresh hibernating
              0%nat fresh_configured)
    as [[_ Hpanics] _].
  apply Hpanics. split; [by exists 0%nat|reflexivity].
Defined.

(** X22 at [tallyOne] and the gauges of [Start]: the series of type
    [prod] in the bucket of zero hours. *)
Lemma setMetrics_one_value_per_series_witness :
  exists v,
    GaugeSet metricClusterDeploymentsUninstalledTotal ["prod"; "0h"] v
      ∈ setMetrics tallyOne
          metricClusterDeploymentsTotal
          metricClusterDeploymentsInstalledTotal
          metricClusterDeploymentsUninstalledTotal
          metricClusterDeploymentsWithConditionTotal
    /\ 2 = v.
Proof.
  assert (Hin : GaugeSet metricClusterDeploymentsUninstalledTotal
                  ["prod"; "0h"] 2
                  ∈ setMetrics tallyOne
                      metricClusterDeploymentsTotal
                      metricClusterDeploymentsInstalledTotal
                      metricClusterDeploymentsUninstalledTotal
                      metricClusterDeploymentsWithConditionTotal)
    by event_in_list.
  exists 2. split; [exact Hin|].
  apply (setMetrics_one_value_per_series tallyOne
           metricClusterDeploymentsTotal
           metricClusterDeploymentsInstalledTotal
           metricClusterDeploymentsUninstalledTotal
           metricClusterDeploymentsWithConditionTotal
           metricClusterDeploymentsUninstalledTotal ["prod"; "0h"] 2 2).
  - discriminate.
  - discriminate.
  - exact Hin.
  - exact Hin.
Defined.
